(** * Tic-Tac-Toe: a shallow embedding of [main.cpp] and its properties

    The program is a chain of five classes
    (GameBoard, GameRepository, GameService, GameController,
    GamePresentation).  Each class becomes a group of functions over an
    explicit state; the two abstract classes become type classes.

    - [std::vector<std::vector<char>>] is a [list (list ascii)];
      [v[i]] is stdpp's lookup, so an index out of range (undefined
      behaviour in C++) shows up as [None];
    - [int] arguments are [Z] (only comparisons against 0 and SIZE are made
      on them, so the width of [int] plays no role there);
    - [std::cout] is the string written so far, [std::cin] the list of
      numerals still to be read, of any size: [std::cin >> row >> col]
      extracts them into 32-bit [int]s, and a numeral that does not fit
      makes the stream fail for good. *)

From Stdlib Require Import ZArith Ascii String Bool.
From stdpp Require Import base option list strings.

Local Open Scope Z_scope.
Local Open Scope nat_scope.

(** ** Characters and text *)

Definition Empty : ascii := " "%char.
Definition PlayerX : ascii := "X"%char.
Definition PlayerO : ascii := "O"%char.
Definition nl : ascii := "010"%char.

(** [std::cout << c] for a char and [<< "\n"]. *)
Definition chr (c : ascii) : string := String c EmptyString.
Definition endl : string := chr nl.

(** ** Reading an [int]

    [std::cin >> n] for an [int n], 32 bits wide.  A numeral that fits is
    stored.  One that does not fit stores the nearest bound and sets
    failbit, after which every extraction returns at once and stores
    nothing. *)

Definition INT_MIN : Z := (-2147483648)%Z.
Definition INT_MAX : Z := 2147483647%Z.

Definition is_int (z : Z) : bool := (INT_MIN <=? z)%Z && (z <=? INT_MAX)%Z.

(** What the extraction leaves in the variable. *)
Definition stored (z : Z) : Z :=
  if (z <? INT_MIN)%Z then INT_MIN else if (INT_MAX <? z)%Z then INT_MAX else z.

(** ** Stateful calls that may hit undefined behaviour

    A method of an object with state [S] returning [A]: [None] stands for an
    out-of-range [operator[]]. *)

Definition M (S A : Type) : Type := S -> option (A * S).

Definition ret {S A} (a : A) : M S A := fun s => Some (a, s).

Definition bind {S A B} (m : M S A) (k : A -> M S B) : M S B :=
  fun s => match m s with
           | Some (a, s') => k a s'
           | None => None
           end.

Definition lift {S A} (o : option A) : M S A :=
  fun s => match o with Some a => Some (a, s) | None => None end.

Declare Scope game_scope.
Delimit Scope game_scope with game.
Notation "'let*' x ':=' m 'in' k" := (bind m (fun x => k))
  (at level 10, x name, m at level 100, k at level 200, only parsing) : game_scope.

(** ** GameBoard *)

Module GameBoard.

Definition SIZE : nat := 3.

Record t : Type := mk { board : list (list ascii) }.

(** [GameBoard()] : SIZE rows of SIZE blanks. *)
Definition new : t :=
  {| board := replicate SIZE (replicate SIZE Empty) |}.

(** [board[i][j]] as an rvalue. *)
Definition cell (b : t) (i j : nat) : option ascii :=
  match board b !! i with
  | Some line => line !! j
  | None => None
  end.

(** [board[i][j] = v]. *)
Definition set_cell (b : t) (i j : nat) (v : ascii) : option t :=
  match board b !! i with
  | Some line =>
      if decide (j < length line)
      then Some {| board := <[i := <[j := v]> line]> (board b) |}
      else None
  | None => None
  end.

(** The class invariant established by the constructor: a SIZE x SIZE grid. *)
Definition wf (b : t) : Prop :=
  length (board b) = SIZE /\ Forall (fun line => length line = SIZE) (board b).

(** *** Display *)

(** The inner [for j] loop of [Display], over the remaining column indices. *)
Fixpoint Display_cols (b : t) (i : nat) (js : list nat) : option string :=
  match js with
  | [] => Some EmptyString
  | j :: js' =>
      match cell b i j with
      | Some c =>
          match Display_cols b i js' with
          | Some out =>
              Some (chr c +:+ (if decide (j < SIZE - 1) then "|" else EmptyString) +:+ out)
          | None => None
          end
      | None => None
      end
  end.

(** The outer [for i] loop of [Display], over the remaining row indices. *)
Fixpoint Display_rows (b : t) (idx : list nat) : option string :=
  match idx with
  | [] => Some EmptyString
  | i :: idx' =>
      match Display_cols b i (seq 0 SIZE) with
      | Some line =>
          match Display_rows b idx' with
          | Some out =>
              Some (line +:+ endl
                    +:+ (if decide (i < SIZE - 1) then "-----" +:+ endl else EmptyString)
                    +:+ out)
          | None => None
          end
      | None => None
      end
  end.

(** [Display()] : the text sent to [std::cout]. *)
Definition Display (b : t) : option string := Display_rows b (seq 0 SIZE).

(** *** IsFull *)

(** [for (char cell : row) if (cell == ' ') return false;] *)
Fixpoint IsFull_row (row : list ascii) : bool :=
  match row with
  | [] => true
  | c :: row' => if Ascii.eqb c Empty then false else IsFull_row row'
  end.

(** [for (const auto& row : board) ...; return true;] *)
Fixpoint IsFull_rows (rows : list (list ascii)) : bool :=
  match rows with
  | [] => true
  | row :: rows' => if IsFull_row row then IsFull_rows rows' else false
  end.

Definition IsFull (b : t) : bool := IsFull_rows (board b).

(** *** IsWinner *)

(** [board[i][j] == player] *)
Definition cell_is (b : t) (player : ascii) (i j : nat) : option bool :=
  match cell b i j with
  | Some c => Some (Ascii.eqb c player)
  | None => None
  end.

(** Short-circuit [x && y]: [y] is evaluated only when [x] is true. *)
Definition and_then (x y : option bool) : option bool :=
  match x with
  | Some true => y
  | _ => x
  end.

(** [if (test) return true; rest] *)
Definition return_true_if (test rest : option bool) : option bool :=
  match test with
  | Some false => rest
  | _ => test
  end.

(** [board[a] == player && board[b] == player && board[c] == player]
    for three coordinates. *)
Definition three (b : t) (player : ascii) (p q r : nat * nat) : option bool :=
  and_then (cell_is b player p.1 p.2)
    (and_then (cell_is b player q.1 q.2) (cell_is b player r.1 r.2)).

(** The [for i] loop of [IsWinner]: row [i], then column [i];
    [after] is the code following the loop. *)
Fixpoint IsWinner_loop (b : t) (player : ascii) (idx : list nat)
    (after : option bool) : option bool :=
  match idx with
  | [] => after
  | i :: idx' =>
      return_true_if (three b player (i, 0) (i, 1) (i, 2))
        (return_true_if (three b player (0, i) (1, i) (2, i))
           (IsWinner_loop b player idx' after))
  end.

Definition IsWinner (b : t) (player : ascii) : option bool :=
  IsWinner_loop b player (seq 0 SIZE)
    (return_true_if (three b player (0, 0) (1, 1) (2, 2))
       (return_true_if (three b player (0, 2) (1, 1) (2, 0))
          (Some false))).

End GameBoard.

(** ** The two abstract classes *)

Module IGameRepository.

Class t (R : Type) : Type := {
  SaveMove : Z -> Z -> ascii -> M R unit;
  GetBoard : M R GameBoard.t;
  ResetBoard : M R unit
}.

End IGameRepository.

Module IGameService.

Class t (S : Type) : Type := {
  MakeMove : Z -> Z -> ascii -> M S bool;
  CheckWinner : ascii -> M S bool;
  IsBoardFull : M S bool;
  ResetGame : M S unit;
  GetBoard : M S GameBoard.t
}.

End IGameService.

(** ** GameRepository : the owner of the one live board *)

Module GameRepository.

Record t : Type := mk { _board : GameBoard.t }.

(** A default-constructed repository holds [GameBoard()]. *)
Definition new : t := {| _board := GameBoard.new |}.

(** [_board.board[row][col] = player;] with no check of its own: a negative
    or too large index is an out-of-range access. *)
Definition SaveMove (row col : Z) (player : ascii) : M t unit :=
  fun r =>
    if decide (0 <= row /\ 0 <= col)%Z
    then match GameBoard.set_cell (_board r) (Z.to_nat row) (Z.to_nat col) player with
         | Some b' => Some (tt, {| _board := b' |})
         | None => None
         end
    else None.

(** [return _board;] (a copy). *)
Definition GetBoard : M t GameBoard.t := fun r => Some (_board r, r).

(** [_board = GameBoard();] *)
Definition ResetBoard : M t unit := fun _ => Some (tt, {| _board := GameBoard.new |}).

#[global] Instance impl : IGameRepository.t t := {|
  IGameRepository.SaveMove := SaveMove;
  IGameRepository.GetBoard := GetBoard;
  IGameRepository.ResetBoard := ResetBoard
|}.

End GameRepository.

(** ** GameService : the rules, over any repository

    The service owns nothing but a pointer to the repository, so its state
    is the repository's. *)

Module GameService.
Section WithRepository.
Context {R : Type} {_repository : IGameRepository.t R}.
Local Open Scope game_scope.

Definition MakeMove (row col : Z) (player : ascii) : M R bool :=
  if decide (row < 0 \/ row >= Z.of_nat GameBoard.SIZE
             \/ col < 0 \/ col >= Z.of_nat GameBoard.SIZE)%Z
  then ret false
  else
    let* b := IGameRepository.GetBoard in
    let* c := lift (GameBoard.cell b (Z.to_nat row) (Z.to_nat col)) in
    if negb (Ascii.eqb c Empty)
    then ret false
    else
      let* _ := IGameRepository.SaveMove row col player in
      ret true.

Definition CheckWinner (player : ascii) : M R bool :=
  let* b := IGameRepository.GetBoard in
  lift (GameBoard.IsWinner b player).

Definition IsBoardFull : M R bool :=
  let* b := IGameRepository.GetBoard in
  ret (GameBoard.IsFull b).

Definition ResetGame : M R unit := IGameRepository.ResetBoard.

Definition GetBoard : M R GameBoard.t := IGameRepository.GetBoard.

#[global] Instance impl : IGameService.t R := {|
  IGameService.MakeMove := MakeMove;
  IGameService.CheckWinner := CheckWinner;
  IGameService.IsBoardFull := IsBoardFull;
  IGameService.ResetGame := ResetGame;
  IGameService.GetBoard := GetBoard
|}.

End WithRepository.
End GameService.

(** ** GameController : over any service *)

Module GameController.
Section WithService.
Context {S : Type} {_service : IGameService.t S}.

Definition MakeMove (row col : Z) (player : ascii) : M S bool :=
  IGameService.MakeMove row col player.

Definition CheckWinner (player : ascii) : M S bool :=
  IGameService.CheckWinner player.

Definition IsBoardFull : M S bool := IGameService.IsBoardFull.

Definition ResetGame : M S unit := IGameService.ResetGame.

Definition GetBoard : M S GameBoard.t := IGameService.GetBoard.

End WithService.
End GameController.

(** ** GamePresentation : the console and the turn loop *)

Module GamePresentation.
Section WithController.
Context {S : Type} {_service : IGameService.t S}.

(** What a run can see and change: the objects behind [_controller]
    (the state of the service at the end of the chain), the field
    [_currentPlayer], and the text written to [std::cout]. *)
Record World : Type := mkWorld {
  _controller : S;
  _currentPlayer : ascii;
  cout : string
}.

(** How a piece of the presentation code can end, given the numerals that
    [std::cin] still holds.

    [Forever w]: a numeral did not fit an [int].  The variable it was read
    into holds INT_MAX or INT_MIN, failbit is set and nothing is read any
    more, so every later round of [GetPlayerMove] calls [MakeMove] with the
    same pair, which is outside the grid (see [MakeMove_after_overflow]):
    from the world [w], in which the prompt has just been written, the
    code writes "Invalid move. Try again." and the prompt for ever. *)
Inductive Res (A : Type) : Type :=
| Done (a : A) (w : World) (rest : list Z)  (* returned; [rest] is left on std::cin *)
| Starved (w : World)                       (* the read blocks: no numeral on std::cin yet *)
| Undefined                                 (* an out-of-range board access *)
| OutOfFuel                                 (* the bound put on [while (true)] was hit *)
| Forever (w : World).                      (* failbit: "Invalid move" without end *)

#[global] Arguments Done {A} a w rest.
#[global] Arguments Starved {A} w.
#[global] Arguments Undefined {A}.
#[global] Arguments OutOfFuel {A}.
#[global] Arguments Forever {A} w.

Definition P (A : Type) : Type := list Z -> World -> Res A.

Definition pret {A} (a : A) : P A := fun input w => Done a w input.

Definition pbind {A B} (m : P A) (k : A -> P B) : P B :=
  fun input w =>
    match m input w with
    | Done a w' rest => k a rest w'
    | Starved w' => Starved w'
    | Undefined => Undefined
    | OutOfFuel => OutOfFuel
    | Forever w' => Forever w'
    end.

Declare Scope pres_scope.
Delimit Scope pres_scope with pres.
Notation "'let*' x ':=' m 'in' k" := (pbind m (fun x => k))
  (at level 10, x name, m at level 100, k at level 200, only parsing) : pres_scope.
Notation "m ';;' k" := (pbind m (fun _ => k))
  (at level 100, k at level 200, right associativity, only parsing) : pres_scope.
Local Open Scope pres_scope.

(** [std::cout << s] *)
Definition print (s : string) (w : World) : World :=
  {| _controller := _controller w;
     _currentPlayer := _currentPlayer w;
     cout := cout w +:+ s |}.

Definition say (s : string) : P unit := fun input w => Done tt (print s w) input.

(** [_controller->method(...)] *)
Definition call {A} (method : M S A) : P A :=
  fun input w =>
    match method (_controller w) with
    | Some (a, s') =>
        Done a {| _controller := s';
                  _currentPlayer := _currentPlayer w;
                  cout := cout w |} input
    | None => Undefined
    end.

(** A board operation that indexes the grid. *)
Definition indexing {A} (o : option A) : P A :=
  fun input w => match o with Some a => Done a w input | None => Undefined end.

Definition currentPlayer : P ascii := fun input w => Done (_currentPlayer w) w input.

Definition DisplayBoard : P unit :=
  say endl ;;
  let* b := call GameController.GetBoard in
  let* text := indexing (GameBoard.Display b) in
  say text ;;
  say endl.

Definition prompt (player : ascii) : string :=
  "Player " +:+ chr player +:+ ", enter your move (row and column, e.g., 1 2): ".

(** The [while (true)] of [GetPlayerMove].  Every round that goes on takes
    two numerals from [std::cin], so the recursion is on the input.
    [std::cin >> row >> col] is not checked by the code: when [row] or
    [col] does not fit an [int] the stream has failed and the loop never
    ends. *)
Fixpoint GetPlayerMove (input : list Z) (w : World) : Res unit :=
  let w1 := print (prompt (_currentPlayer w)) w in
  match input with
  | [] => Starved w1
  | row :: input' =>
      if negb (is_int row) then Forever w1
      else
        match input' with
        | [] => Starved w1
        | col :: rest =>
            if negb (is_int col) then Forever w1
            else
              match call (GameController.MakeMove row col (_currentPlayer w1)) rest w1 with
              | Done true w2 _ => Done tt w2 rest
              | Done false w2 _ =>
                  GetPlayerMove rest (print ("Invalid move. Try again." +:+ endl) w2)
              | Starved w2 => Starved w2
              | Undefined => Undefined
              | OutOfFuel => OutOfFuel
              | Forever w2 => Forever w2
              end
        end
  end.

(** [_currentPlayer = (_currentPlayer == 'X') ? 'O' : 'X';] *)
Definition SwitchPlayer_mark (player : ascii) : ascii :=
  if Ascii.eqb player PlayerX then PlayerO else PlayerX.

Definition SwitchPlayer : P unit :=
  fun input w =>
    Done tt {| _controller := _controller w;
               _currentPlayer := SwitchPlayer_mark (_currentPlayer w);
               cout := cout w |} input.

(** How one round of the [while (true)] of [StartGame] ends. *)
Inductive Ctl : Type := Break | Continue.

(** The body of the [while (true)] of [StartGame]. *)
Definition StartGame_body : P Ctl :=
  DisplayBoard ;;
  GetPlayerMove ;;
  let* player := currentPlayer in
  let* won := call (GameController.CheckWinner player) in
  if won : bool then
    DisplayBoard ;;
    say ("Player " +:+ chr player +:+ " wins!" +:+ endl) ;;
    pret Break
  else
    let* full := call GameController.IsBoardFull in
    if full : bool then
      DisplayBoard ;;
      say ("It's a draw!" +:+ endl) ;;
      pret Break
    else
      SwitchPlayer ;;
      pret Continue.

(** [while (true) { body }], unrolled at most [fuel] times. *)
Fixpoint StartGame_loop (fuel : nat) : P unit :=
  match fuel with
  | O => fun _ _ => OutOfFuel
  | Datatypes.S fuel' =>
      let* ctl := StartGame_body in
      match ctl with
      | Break => pret tt
      | Continue => StartGame_loop fuel'
      end
  end.

Definition StartGame (fuel : nat) : P unit :=
  say ("Welcome to Tic-Tac-Toe!" +:+ endl) ;;
  call GameController.ResetGame ;;
  StartGame_loop fuel.

(** [GamePresentation(controller)] : the first player is 'X'. *)
Definition new (controller : S) : World :=
  {| _controller := controller; _currentPlayer := PlayerX; cout := EmptyString |}.

End WithController.

#[global] Arguments World S : clear implicits.
#[global] Arguments Res S A : clear implicits.

End GamePresentation.

(** ** main : the wiring *)

(** [main] on a given content of [std::cin].  A round of the turn loop
    that goes on reads at least two numerals, so the loop is entered at
    most once more than there are numerals to read. *)
Definition main (input : list Z) : GamePresentation.Res GameRepository.t unit :=
  GamePresentation.StartGame (Datatypes.S (length input)) input
    (GamePresentation.new GameRepository.new).

(** ** Vocabulary of the properties *)

(** The eight lines of the grid, as coordinates (row, column). *)
Definition rows : list (list (nat * nat)) :=
  [ [(0, 0); (0, 1); (0, 2)]; [(1, 0); (1, 1); (1, 2)]; [(2, 0); (2, 1); (2, 2)] ].
Definition columns : list (list (nat * nat)) :=
  [ [(0, 0); (1, 0); (2, 0)]; [(0, 1); (1, 1); (2, 1)]; [(0, 2); (1, 2); (2, 2)] ].
Definition diagonals : list (list (nat * nat)) :=
  [ [(0, 0); (1, 1); (2, 2)]; [(0, 2); (1, 1); (2, 0)] ].
Definition lines : list (list (nat * nat)) := rows ++ columns ++ diagonals.

(** Every cell of [line] holds [mark]. *)
Definition line_of (b : GameBoard.t) (mark : ascii) (line : list (nat * nat)) : Prop :=
  Forall (fun ij => GameBoard.cell b ij.1 ij.2 = Some mark) line.

(** The grid with the nine given cells, row by row. *)
Definition grid (a0 a1 a2 b0 b1 b2 c0 c1 c2 : ascii) : GameBoard.t :=
  {| GameBoard.board := [ [a0; a1; a2]; [b0; b1; b2]; [c0; c1; c2] ] |}.

(** One rendered row: [x|y|z]. *)
Definition row_text (x y z : ascii) : string :=
  chr x +:+ "|" +:+ chr y +:+ "|" +:+ chr z.

(** How many cells of a row, and of the whole grid, hold [mark]. *)
Definition count_row (mark : ascii) (row : list ascii) : nat :=
  length (filter (fun c => c = mark) row).
Definition count_mark (b : GameBoard.t) (mark : ascii) : nat :=
  sum_list (count_row mark <$> GameBoard.board b).

(** 1 when [c] is [mark], 0 otherwise. *)
Definition one_if (c mark : ascii) : nat := if decide (c = mark) then 1 else 0.

(** The states in which the [while (true)] of [StartGame] is entered:
    [loop_head n input w] when, [n] rounds having ended in [SwitchPlayer],
    the loop is at its head in world [w] with [input] left to read. *)
Inductive loop_head {S : Type} {_service : IGameService.t S} :
    nat -> list Z -> GamePresentation.World S -> Prop :=
| loop_head_first (controller : S) (input : list Z) (w : GamePresentation.World S) :
    GamePresentation.pbind
      (GamePresentation.say ("Welcome to Tic-Tac-Toe!" +:+ endl))
      (fun _ => GamePresentation.call GameController.ResetGame)
      input (GamePresentation.new controller)
    = GamePresentation.Done tt w input ->
    loop_head 0 input w
| loop_head_next (n : nat) (input rest : list Z) (w w' : GamePresentation.World S) :
    loop_head n input w ->
    GamePresentation.StartGame_body input w
    = GamePresentation.Done GamePresentation.Continue w' rest ->
    loop_head (Datatypes.S n) rest w'.

(** The world of [main]: the service of [main] over the repository of [main]. *)
Abbreviation World := (GamePresentation.World GameRepository.t).

(** * Properties *)

(** ** The board *)

Lemma wf_grid (b : GameBoard.t) :
  GameBoard.wf b ->
  exists a0 a1 a2 b0 b1 b2 c0 c1 c2, b = grid a0 a1 a2 b0 b1 b2 c0 c1 c2.
Proof.
  destruct b as [rows0]. unfold GameBoard.wf, GameBoard.SIZE. simpl.
  intros [Hlen Hall].
  destruct rows0 as [|r0 [|r1 [|r2 [|? ?]]]]; simpl in Hlen; try discriminate.
  inversion Hall as [|? ? H0 Hall1]; subst.
  inversion Hall1 as [|? ? H1 Hall2]; subst.
  inversion Hall2 as [|? ? H2 _]; subst.
  destruct r0 as [|a0 [|a1 [|a2 [|? ?]]]]; simpl in H0; try discriminate.
  destruct r1 as [|b0 [|b1 [|b2 [|? ?]]]]; simpl in H1; try discriminate.
  destruct r2 as [|c0 [|c1 [|c2 [|? ?]]]]; simpl in H2; try discriminate.
  by exists a0, a1, a2, b0, b1, b2, c0, c1, c2.
Qed.

Lemma grid_wf a0 a1 a2 b0 b1 b2 c0 c1 c2 :
  GameBoard.wf (grid a0 a1 a2 b0 b1 b2 c0 c1 c2).
Proof. split; [done | repeat constructor]. Qed.

Lemma new_wf : GameBoard.wf GameBoard.new.
Proof. apply (grid_wf Empty Empty Empty Empty Empty Empty Empty Empty Empty). Qed.

Lemma wf_cell (b : GameBoard.t) (i j : nat) :
  GameBoard.wf b -> i < GameBoard.SIZE -> j < GameBoard.SIZE ->
  is_Some (GameBoard.cell b i j).
Proof.
  intros [Hlen Hall] Hi Hj. unfold GameBoard.cell.
  destruct (lookup_lt_is_Some_2 (GameBoard.board b) i) as [line Hline]; [lia|].
  rewrite Hline. apply lookup_lt_is_Some_2.
  rewrite Forall_lookup in Hall. by rewrite (Hall _ _ Hline).
Qed.

Lemma IsFull_row_spec (row : list ascii) :
  GameBoard.IsFull_row row = true <-> Forall (fun c => c <> Empty) row.
Proof.
  induction row as [|c row IH]; simpl.
  - split; [constructor | done].
  - destruct (Ascii.eqb_spec c Empty) as [->|Hne].
    + split; [done|]. intros H. inversion H. congruence.
    + rewrite IH. split.
      * by constructor.
      * intros H. by inversion H.
Qed.

Lemma IsFull_rows_spec (rows0 : list (list ascii)) :
  GameBoard.IsFull_rows rows0 = true
  <-> Forall (fun row => Forall (fun c => c <> Empty) row) rows0.
Proof.
  induction rows0 as [|row rows0 IH]; simpl.
  - split; [constructor | done].
  - destruct (GameBoard.IsFull_row row) eqn:Hrow.
    + rewrite IH. apply IsFull_row_spec in Hrow. split.
      * by constructor.
      * intros H. by inversion H.
    + split; [done|]. intros H. inversion H as [|? ? Hr _]; subst.
      apply IsFull_row_spec in Hr. congruence.
Qed.

(** [IsFull] on a grid of any shape: no cell that exists is blank. *)
Lemma IsFull_cells (b : GameBoard.t) :
  GameBoard.IsFull b = true
  <-> forall i j c, GameBoard.cell b i j = Some c -> c <> Empty.
Proof.
  unfold GameBoard.IsFull, GameBoard.cell. rewrite IsFull_rows_spec. split.
  - intros H i j c.
    destruct (GameBoard.board b !! i) as [line|] eqn:Hline; [|done].
    intros Hc. rewrite Forall_lookup in H. specialize (H _ _ Hline).
    rewrite Forall_lookup in H. by apply (H j).
  - intros H. apply Forall_lookup. intros i line Hline.
    apply Forall_lookup. intros j c Hc. apply (H i j). by rewrite Hline.
Qed.

(** C2. On every 3x3 board, [IsFull] answers true exactly when each of the
    nine cells holds a mark other than the blank. *)
Theorem IsFull_iff_no_empty_cell (b : GameBoard.t) :
  GameBoard.wf b ->
  (GameBoard.IsFull b = true
   <-> forall i j, i < GameBoard.SIZE -> j < GameBoard.SIZE ->
         exists c, GameBoard.cell b i j = Some c /\ c <> Empty).
Proof.
  intros Hwf. rewrite IsFull_cells. split.
  - intros H i j Hi Hj.
    destruct (wf_cell b i j Hwf Hi Hj) as [c Hc]. exists c. eauto.
  - intros H i j c Hc.
    destruct (decide (i < GameBoard.SIZE)) as [Hi|Hi];
      [destruct (decide (j < GameBoard.SIZE)) as [Hj|Hj]|].
    + destruct (H i j Hi Hj) as (c' & Hc' & Hne). congruence.
    + exfalso. destruct (wf_grid b Hwf) as (a0&a1&a2&b0&b1&b2&c0&c1&c2&->).
      unfold GameBoard.SIZE in *.
      destruct i as [|[|[|i]]]; try lia; simpl in Hc;
        destruct j as [|[|[|j]]]; try lia; discriminate.
    + exfalso. destruct (wf_grid b Hwf) as (a0&a1&a2&b0&b1&b2&c0&c1&c2&->).
      unfold GameBoard.SIZE in *.
      destruct i as [|[|[|i]]]; try lia; discriminate.
Qed.

Lemma IsFull_iff_no_empty_cell_witness :
  GameBoard.IsFull (grid "X" "O" "X" "X" "O" "O" "O" "X" "X") = true
  <-> forall i j, i < GameBoard.SIZE -> j < GameBoard.SIZE ->
        exists c, GameBoard.cell (grid "X" "O" "X" "X" "O" "O" "O" "X" "X") i j = Some c
                  /\ c <> Empty.
Proof.
  apply (IsFull_iff_no_empty_cell (grid "X" "O" "X" "X" "O" "O" "O" "X" "X")).
  split; [reflexivity | repeat constructor].
Defined.

(** *** IsWinner *)

Lemma line_of_grid_3 (b : GameBoard.t) (mark : ascii) (p q r : nat * nat) :
  line_of b mark [p; q; r]
  <-> GameBoard.cell b p.1 p.2 = Some mark
      /\ GameBoard.cell b q.1 q.2 = Some mark
      /\ GameBoard.cell b r.1 r.2 = Some mark.
Proof.
  unfold line_of. split.
  - intros H. inversion H as [|? ? Hp H1]; subst.
    inversion H1 as [|? ? Hq H2]; subst. inversion H2; subst. done.
  - intros (Hp & Hq & Hr). by repeat constructor.
Qed.

Lemma three_true_line (b : GameBoard.t) (mark : ascii) (p q r : nat * nat) (x y z : ascii) :
  GameBoard.cell b p.1 p.2 = Some x ->
  GameBoard.cell b q.1 q.2 = Some y ->
  GameBoard.cell b r.1 r.2 = Some z ->
  (Ascii.eqb x mark && Ascii.eqb y mark && Ascii.eqb z mark = true
   <-> line_of b mark [p; q; r]).
Proof.
  intros Hp Hq Hr. rewrite line_of_grid_3, Hp, Hq, Hr.
  rewrite !andb_true_iff, !Ascii.eqb_eq. split.
  - intros [[-> ->] ->]. done.
  - intros (? & ? & ?). by simplify_eq.
Qed.

(** [IsWinner] on a 3x3 grid returns, and its answer is that of the eight
    tests in the order of the code. *)
Lemma IsWinner_grid (mark a0 a1 a2 b0 b1 b2 c0 c1 c2 : ascii) :
  let hit x := Ascii.eqb x mark in
  GameBoard.IsWinner (grid a0 a1 a2 b0 b1 b2 c0 c1 c2) mark
  = Some ((hit a0 && hit a1 && hit a2) || (hit a0 && hit b0 && hit c0)
          || (hit b0 && hit b1 && hit b2) || (hit a1 && hit b1 && hit c1)
          || (hit c0 && hit c1 && hit c2) || (hit a2 && hit b2 && hit c2)
          || (hit a0 && hit b1 && hit c2) || (hit a2 && hit b1 && hit c0)).
Proof.
  intros hit. subst hit.
  unfold GameBoard.IsWinner, GameBoard.SIZE. simpl.
  unfold GameBoard.three, GameBoard.cell_is, GameBoard.cell. simpl.
  destruct (Ascii.eqb a0 mark), (Ascii.eqb a1 mark), (Ascii.eqb a2 mark),
    (Ascii.eqb b0 mark), (Ascii.eqb b1 mark), (Ascii.eqb b2 mark),
    (Ascii.eqb c0 mark), (Ascii.eqb c1 mark), (Ascii.eqb c2 mark); reflexivity.
Qed.

(** On a 3x3 board [IsWinner] always returns, and it returns true exactly
    when one of the eight lines hit all [mark]. *)
Lemma IsWinner_lines (b : GameBoard.t) (mark : ascii) :
  GameBoard.wf b ->
  exists answer,
    GameBoard.IsWinner b mark = Some answer
    /\ (answer = true <-> exists line, line ∈ lines /\ line_of b mark line).
Proof.
  intros Hwf. destruct (wf_grid b Hwf) as (a0&a1&a2&b0&b1&b2&c0&c1&c2&->).
  eexists. split; [apply IsWinner_grid|]. cbv zeta.
  set (g := grid a0 a1 a2 b0 b1 b2 c0 c1 c2).
  rewrite !orb_true_iff.
  rewrite (three_true_line g mark (0,0) (0,1) (0,2)) by done.
  rewrite (three_true_line g mark (0,0) (1,0) (2,0)) by done.
  rewrite (three_true_line g mark (1,0) (1,1) (1,2)) by done.
  rewrite (three_true_line g mark (0,1) (1,1) (2,1)) by done.
  rewrite (three_true_line g mark (2,0) (2,1) (2,2)) by done.
  rewrite (three_true_line g mark (0,2) (1,2) (2,2)) by done.
  rewrite (three_true_line g mark (0,0) (1,1) (2,2)) by done.
  rewrite (three_true_line g mark (0,2) (1,1) (2,0)) by done.
  unfold lines, rows, columns, diagonals. simpl. split.
  - intros [[[[[[[H|H]|H]|H]|H]|H]|H]|H];
      (eexists; split; [|exact H]); repeat constructor.
  - intros (line & Hin & Hline).
    repeat (apply elem_of_cons in Hin as [->|Hin]; [tauto|]).
    by apply elem_of_nil in Hin.
Qed.

(** C3. On every 3x3 board and for every mark [p], [IsWinner p] returns
    true if and only if one of the eight lines (three rows, three columns,
    two diagonals) has its three cells equal to [p]; it returns false
    otherwise. *)
Theorem IsWinner_iff_some_line (b : GameBoard.t) (p : ascii) :
  GameBoard.wf b ->
  (GameBoard.IsWinner b p = Some true
   <-> exists line, line ∈ lines /\ line_of b p line)
  /\ (GameBoard.IsWinner b p = Some false
      <-> ~ exists line, line ∈ lines /\ line_of b p line).
Proof.
  intros Hwf. destruct (IsWinner_lines b p Hwf) as (answer & -> & Hanswer).
  rewrite <- Hanswer. split.
  - split; [by intros [= ->] | by intros ->].
  - destruct answer; split; done.
Qed.

Lemma IsWinner_iff_some_line_witness :
  (GameBoard.IsWinner (grid "X" "O" " " "O" "X" " " " " " " "X") "X" = Some true
   <-> exists line, line ∈ lines
         /\ line_of (grid "X" "O" " " "O" "X" " " " " " " "X") "X" line)
  /\ (GameBoard.IsWinner (grid "X" "O" " " "O" "X" " " " " " " "X") "X" = Some false
      <-> ~ exists line, line ∈ lines
              /\ line_of (grid "X" "O" " " "O" "X" " " " " " " "X") "X" line).
Proof.
  apply (IsWinner_iff_some_line (grid "X" "O" " " "O" "X" " " " " " " "X") "X").
  split; [reflexivity | repeat constructor].
Defined.

(** *** Writing a cell *)

Lemma set_cell_Some (b : GameBoard.t) (i j : nat) (x v : ascii) :
  GameBoard.cell b i j = Some x ->
  exists b', GameBoard.set_cell b i j v = Some b'
    /\ GameBoard.cell b' i j = Some v
    /\ (forall i' j', (i', j') <> (i, j) -> GameBoard.cell b' i' j' = GameBoard.cell b i' j')
    /\ (GameBoard.wf b -> GameBoard.wf b').
Proof.
  unfold GameBoard.cell, GameBoard.set_cell.
  destruct (GameBoard.board b !! i) as [line|] eqn:Hline; [|done].
  intros Hx. pose proof (lookup_lt_Some _ _ _ Hline) as Hi.
  pose proof (lookup_lt_Some _ _ _ Hx) as Hj.
  rewrite decide_True by done. eexists. split; [done|]. simpl.
  split; [|split].
  - rewrite list_lookup_insert_eq by done. by apply list_lookup_insert_eq.
  - intros i' j' Hne. destruct (decide (i' = i)) as [->|Hi'].
    + rewrite list_lookup_insert_eq by done. rewrite Hline.
      apply list_lookup_insert_ne. congruence.
    + by rewrite list_lookup_insert_ne.
  - intros [Hlen Hall]. split; simpl.
    + by rewrite length_insert.
    + apply Forall_insert; [done|]. rewrite length_insert.
      rewrite Forall_lookup in Hall. by apply (Hall i).
Qed.

(** Writing back what the cell already holds changes nothing. *)
Lemma set_cell_same (b : GameBoard.t) (i j : nat) (x : ascii) :
  GameBoard.cell b i j = Some x -> GameBoard.set_cell b i j x = Some b.
Proof.
  unfold GameBoard.cell, GameBoard.set_cell.
  destruct (GameBoard.board b !! i) as [line|] eqn:Hline; [|done].
  intros Hx. rewrite decide_True by (by apply lookup_lt_Some in Hx).
  rewrite (list_insert_id line j x) by done.
  rewrite list_insert_id by done. by destruct b.
Qed.

(** ** GameService over GameRepository *)

Lemma MakeMove_out_of_range (row col : Z) (player : ascii) (st : GameRepository.t) :
  (row < 0 \/ row >= 3 \/ col < 0 \/ col >= 3)%Z ->
  GameService.MakeMove row col player st = Some (false, st).
Proof.
  intros H. unfold GameService.MakeMove. by rewrite decide_True.
Qed.

Lemma MakeMove_in_range (row col : Z) (player x : ascii) (st : GameRepository.t) :
  (0 <= row < 3)%Z -> (0 <= col < 3)%Z ->
  GameBoard.cell (GameRepository._board st) (Z.to_nat row) (Z.to_nat col) = Some x ->
  GameService.MakeMove row col player st
  = if Ascii.eqb x Empty
    then match GameBoard.set_cell (GameRepository._board st)
                 (Z.to_nat row) (Z.to_nat col) player with
         | Some b' => Some (true, {| GameRepository._board := b' |})
         | None => None
         end
    else Some (false, st).
Proof.
  intros Hrow Hcol Hx. unfold GameService.MakeMove.
  rewrite decide_False by (unfold GameBoard.SIZE; lia).
  unfold bind, lift, ret. simpl. unfold GameRepository.GetBoard. rewrite Hx.
  destruct (Ascii.eqb x Empty); simpl; [|done].
  unfold GameRepository.SaveMove. rewrite decide_True by lia.
  by destruct (GameBoard.set_cell _ _ _ _).
Qed.

(** C1. On a 3x3 board, for every row [r], column [c] and mark [p]:
    [MakeMove r c p] returns false and leaves the board as it was when
    [r] or [c] is outside [0,3) or the cell (r,c) is not blank; otherwise it
    returns true, the cell (r,c) holds [p], and every other cell is as
    before. *)
Theorem MakeMove_spec (r c : Z) (p : ascii) (st : GameRepository.t) :
  GameBoard.wf (GameRepository._board st) ->
  let b := GameRepository._board st in
  let rejected :=
    (r < 0 \/ r >= 3)%Z \/ (c < 0 \/ c >= 3)%Z
    \/ GameBoard.cell b (Z.to_nat r) (Z.to_nat c) <> Some Empty in
  (rejected -> GameService.MakeMove r c p st = Some (false, st))
  /\ (~ rejected ->
      exists st',
        GameService.MakeMove r c p st = Some (true, st')
        /\ GameBoard.cell (GameRepository._board st') (Z.to_nat r) (Z.to_nat c) = Some p
        /\ (forall i j, (i, j) <> (Z.to_nat r, Z.to_nat c) ->
              GameBoard.cell (GameRepository._board st') i j = GameBoard.cell b i j)
        /\ GameBoard.wf (GameRepository._board st')).
Proof.
  intros Hwf b rejected.
  destruct (decide ((r < 0 \/ r >= 3) \/ (c < 0 \/ c >= 3))%Z) as [Hout|Hin].
  - split.
    + intros _. apply MakeMove_out_of_range. lia.
    + intros Hacc. exfalso. apply Hacc. subst rejected. tauto.
  - assert (0 <= r < 3)%Z as Hr by lia. assert (0 <= c < 3)%Z as Hc by lia.
    destruct (wf_cell b (Z.to_nat r) (Z.to_nat c) Hwf) as [x Hx];
      [unfold GameBoard.SIZE; lia ..|].
    pose proof (MakeMove_in_range r c p x st Hr Hc Hx) as Hmove.
    destruct (Ascii.eqb_spec x Empty) as [->|Hne].
    + split.
      * intros [?|[?|Hocc]]; [lia | lia | done].
      * intros _.
        destruct (set_cell_Some b _ _ Empty p Hx) as (b' & Hset & Hnew & Hold & Hwf').
        fold b in Hmove. rewrite Hset in Hmove.
        eexists. split; [exact Hmove|]. simpl. auto.
    + split.
      * intros _. exact Hmove.
      * intros Hacc. exfalso. apply Hacc. subst rejected.
        right. right. fold b. rewrite Hx. congruence.
Qed.

Lemma MakeMove_spec_witness :
  let st := {| GameRepository._board := grid "X" " " " " " " "O" " " " " " " " " |} in
  (GameService.MakeMove 0 0 "O" st = Some (false, st))
  /\ (GameService.MakeMove 3 0 "O" st = Some (false, st))
  /\ exists st',
       GameService.MakeMove 0 1 "X" st = Some (true, st')
       /\ GameBoard.cell (GameRepository._board st') 0 1 = Some "X"%char.
Proof.
  intros st.
  assert (GameBoard.wf (GameRepository._board st)) as Hwf
    by (split; [reflexivity | repeat constructor]).
  split; [|split].
  - apply (MakeMove_spec 0 0 "O" st Hwf). right. right. simpl. discriminate.
  - apply (MakeMove_spec 3 0 "O" st Hwf). left. lia.
  - destruct (proj2 (MakeMove_spec 0 1 "X" st Hwf)) as (st' & Hmove & Hcell & _).
    + simpl. intros [?|[?|Hocc]]; [lia | lia | by apply Hocc].
    + exists st'. by split.
Defined.

(** C9. [MakeMove] does not look at the mark it is given.  For every
    in-range (r,c) whose cell is blank, [MakeMove r c ' '] returns true
    and the state after the call is the state before it, so that a second
    [MakeMove] on the same cell, with any mark, returns true as well. *)
Theorem MakeMove_blank_mark (r c : Z) (st : GameRepository.t) :
  (0 <= r < 3)%Z -> (0 <= c < 3)%Z ->
  GameBoard.cell (GameRepository._board st) (Z.to_nat r) (Z.to_nat c) = Some Empty ->
  exists st1,
    GameService.MakeMove r c Empty st = Some (true, st1)
    /\ st1 = st
    /\ forall p, exists st2, GameService.MakeMove r c p st1 = Some (true, st2).
Proof.
  intros Hr Hc Hcell. exists st. split; [|split; [done|]].
  - rewrite (MakeMove_in_range r c Empty Empty st Hr Hc Hcell). simpl.
    rewrite (set_cell_same _ _ _ _ Hcell). by destruct st.
  - intros p. rewrite (MakeMove_in_range r c p Empty st Hr Hc Hcell). simpl.
    destruct (set_cell_Some _ _ _ Empty p Hcell) as (b' & -> & _). eauto.
Qed.

Lemma MakeMove_blank_mark_witness :
  exists st1,
    GameService.MakeMove 1 2 Empty GameRepository.new = Some (true, st1)
    /\ st1 = GameRepository.new
    /\ forall p, exists st2, GameService.MakeMove 1 2 p st1 = Some (true, st2).
Proof.
  apply (MakeMove_blank_mark 1 2 GameRepository.new); [lia | lia | reflexivity].
Defined.

Lemma CheckWinner_eq (player : ascii) (st : GameRepository.t) :
  GameService.CheckWinner player st
  = match GameBoard.IsWinner (GameRepository._board st) player with
    | Some answer => Some (answer, st)
    | None => None
    end.
Proof. reflexivity. Qed.

(** C4. Whatever the board was, [ResetGame] returns and leaves the board
    that [GameBoard()] builds, three rows of three blanks; in that state
    [IsBoardFull] returns false and [CheckWinner] returns false for 'X'
    and for 'O', none of them changing the state. *)
Theorem ResetGame_spec (st : GameRepository.t) :
  exists st',
    GameService.ResetGame st = Some (tt, st')
    /\ GameRepository._board st' = GameBoard.new
    /\ GameBoard.new = grid " " " " " " " " " " " " " " " " " "
    /\ GameService.IsBoardFull st' = Some (false, st')
    /\ GameService.CheckWinner PlayerX st' = Some (false, st')
    /\ GameService.CheckWinner PlayerO st' = Some (false, st').
Proof. exists GameRepository.new. by repeat split. Qed.

(** C10. [IsWinner] does not ask for a player's mark.  On every 3x3 board
    with a line of three blank cells, [IsWinner ' '] returns true; the
    board left by [ResetGame] is one, so [CheckWinner ' '] returns true
    right after [ResetGame]. *)
Theorem IsWinner_blank_mark (b : GameBoard.t) (line : list (nat * nat)) :
  GameBoard.wf b -> line ∈ lines -> line_of b Empty line ->
  GameBoard.IsWinner b Empty = Some true
  /\ forall st, exists st',
       GameService.ResetGame st = Some (tt, st')
       /\ GameService.CheckWinner Empty st' = Some (true, st').
Proof.
  intros Hwf Hin Hline. split.
  - destruct (IsWinner_lines b Empty Hwf) as (answer & -> & Hanswer).
    f_equal. apply Hanswer. eauto.
  - intros st. exists GameRepository.new. by split.
Qed.

Lemma IsWinner_blank_mark_witness :
  GameBoard.IsWinner (grid "X" "O" "X" " " " " " " "O" "X" "O") Empty = Some true
  /\ forall st, exists st',
       GameService.ResetGame st = Some (tt, st')
       /\ GameService.CheckWinner Empty st' = Some (true, st').
Proof.
  apply (IsWinner_blank_mark (grid "X" "O" "X" " " " " " " "O" "X" "O")
           [(1, 0); (1, 1); (1, 2)]).
  - split; [reflexivity | repeat constructor].
  - unfold lines, rows. repeat constructor.
  - repeat constructor.
Defined.

(** ** GameController *)

(** C5. Each of the five operations of [GameController], wired to a
    [GameService] over any repository, is the operation of the same name
    of that service: same result and same state after the call, for every
    state and every argument. *)
Theorem GameController_forwards
    (R : Type) (_repository : IGameRepository.t R)
    (row col : Z) (player : ascii) (st : R) :
  let _service : IGameService.t R := GameService.impl in
  GameController.MakeMove (_service := _service) row col player st
  = GameService.MakeMove row col player st
  /\ GameController.CheckWinner (_service := _service) player st
     = GameService.CheckWinner player st
  /\ GameController.IsBoardFull (_service := _service) st = GameService.IsBoardFull st
  /\ GameController.ResetGame (_service := _service) st = GameService.ResetGame st
  /\ GameController.GetBoard (_service := _service) st = GameService.GetBoard st.
Proof. repeat split. Qed.

(** ** GamePresentation *)

Lemma append_assoc (s1 s2 s3 : string) : (s1 +:+ s2) +:+ s3 = s1 +:+ s2 +:+ s3.
Proof.
  induction s1 as [|c s1 IH]; [done|].
  change (String c ((s1 +:+ s2) +:+ s3) = String c (s1 +:+ s2 +:+ s3)).
  by f_equal.
Qed.

Lemma Display_grid (a0 a1 a2 b0 b1 b2 c0 c1 c2 : ascii) :
  GameBoard.Display (grid a0 a1 a2 b0 b1 b2 c0 c1 c2)
  = Some (row_text a0 a1 a2 +:+ endl +:+ "-----" +:+ endl
          +:+ row_text b0 b1 b2 +:+ endl +:+ "-----" +:+ endl
          +:+ row_text c0 c1 c2 +:+ endl).
Proof. reflexivity. Qed.

Lemma Display_wf (b : GameBoard.t) :
  GameBoard.wf b -> is_Some (GameBoard.Display b).
Proof.
  intros Hwf. destruct (wf_grid b Hwf) as (a0&a1&a2&b0&b1&b2&c0&c1&c2&->).
  rewrite Display_grid. eauto.
Qed.

(** [DisplayBoard] in the wiring of [main]: a newline, the board, a newline. *)
Lemma DisplayBoard_eq (input : list Z) (w : World) (text : string) :
  GameBoard.Display (GameRepository._board (GamePresentation._controller w)) = Some text ->
  GamePresentation.DisplayBoard input w
  = GamePresentation.Done tt (GamePresentation.print (endl +:+ text +:+ endl) w) input.
Proof.
  intros Htext. unfold GamePresentation.DisplayBoard, GamePresentation.pbind,
    GamePresentation.say, GamePresentation.call, GamePresentation.indexing.
  simpl. rewrite Htext. unfold GamePresentation.print. simpl.
  by rewrite !append_assoc.
Qed.

(** C8. For every 3x3 board, [Display] writes exactly three rows [c|c|c],
    each ended by a newline, with the line [-----] after the first and
    after the second row and nothing after the third; [DisplayBoard]
    writes one newline, that text, and one more newline, and changes
    nothing else. *)
Theorem Display_spec (a0 a1 a2 b0 b1 b2 c0 c1 c2 : ascii)
    (input : list Z) (player : ascii) (out : string) :
  let b := grid a0 a1 a2 b0 b1 b2 c0 c1 c2 in
  let text :=
    row_text a0 a1 a2 +:+ endl +:+ "-----" +:+ endl
    +:+ row_text b0 b1 b2 +:+ endl +:+ "-----" +:+ endl
    +:+ row_text c0 c1 c2 +:+ endl in
  GameBoard.Display b = Some text
  /\ GamePresentation.DisplayBoard input
       {| GamePresentation._controller := {| GameRepository._board := b |};
          GamePresentation._currentPlayer := player;
          GamePresentation.cout := out |}
     = GamePresentation.Done tt
         {| GamePresentation._controller := {| GameRepository._board := b |};
            GamePresentation._currentPlayer := player;
            GamePresentation.cout := out +:+ endl +:+ text +:+ endl |}
         input.
Proof.
  intros b text. split; [reflexivity|].
  by rewrite (DisplayBoard_eq input _ text).
Qed.

Example Display_example :
  GameBoard.Display (grid "X" "O" " " " " "X" " " "O" " " "X")
  = Some "X|O| 
-----
 |X| 
-----
O| |X
".
Proof. reflexivity. Qed.

(** *** What every piece of the presentation leaves alone

    These hold over any service. *)

Section AnyService.
Context {S : Type} {_service : IGameService.t S}.

Lemma pbind_Done {A B} (m : GamePresentation.P A) (k : A -> GamePresentation.P B)
    (input rest : list Z) (w w' : GamePresentation.World S) (b : B) :
  GamePresentation.pbind m k input w = GamePresentation.Done b w' rest ->
  exists a w1 rest1,
    m input w = GamePresentation.Done a w1 rest1
    /\ k a rest1 w1 = GamePresentation.Done b w' rest.
Proof.
  unfold GamePresentation.pbind. destruct (m input w) as [a w1 rest1| | | |]; [|done..].
  intros Hk. by exists a, w1, rest1.
Qed.

Lemma pbind_Done_eq {A B} (m : GamePresentation.P A) (k : A -> GamePresentation.P B)
    (input rest : list Z) (w w' : GamePresentation.World S) (a : A) :
  m input w = GamePresentation.Done a w' rest ->
  GamePresentation.pbind m k input w = k a rest w'.
Proof. unfold GamePresentation.pbind. by intros ->. Qed.

Lemma pbind_Starved_eq {A B} (m : GamePresentation.P A) (k : A -> GamePresentation.P B)
    (input : list Z) (w w' : GamePresentation.World S) :
  m input w = GamePresentation.Starved w' ->
  GamePresentation.pbind m k input w = GamePresentation.Starved w'.
Proof. unfold GamePresentation.pbind. by intros ->. Qed.

Lemma pbind_Forever_eq {A B} (m : GamePresentation.P A) (k : A -> GamePresentation.P B)
    (input : list Z) (w w' : GamePresentation.World S) :
  m input w = GamePresentation.Forever w' ->
  GamePresentation.pbind m k input w = GamePresentation.Forever w'.
Proof. unfold GamePresentation.pbind. by intros ->. Qed.

(** A call that leaves the objects behind the controller as they were. *)
Lemma call_const {A} (method : M S A) (input : list Z)
    (w : GamePresentation.World S) (a : A) :
  method (GamePresentation._controller w) = Some (a, GamePresentation._controller w) ->
  GamePresentation.call method input w = GamePresentation.Done a w input.
Proof. unfold GamePresentation.call. intros ->. by destruct w. Qed.

Lemma call_Done {A} (method : M S A) (input rest : list Z)
    (w w' : GamePresentation.World S) (a : A) :
  GamePresentation.call method input w = GamePresentation.Done a w' rest ->
  rest = input
  /\ GamePresentation._currentPlayer w' = GamePresentation._currentPlayer w
  /\ GamePresentation.cout w' = GamePresentation.cout w
  /\ method (GamePresentation._controller w) = Some (a, GamePresentation._controller w').
Proof.
  unfold GamePresentation.call.
  destruct (method (GamePresentation._controller w)) as [[a' s']|]; [|done].
  by intros [= -> <- <-].
Qed.

Lemma DisplayBoard_Done (input rest : list Z) (w w' : GamePresentation.World S) :
  GamePresentation.DisplayBoard input w = GamePresentation.Done tt w' rest ->
  rest = input
  /\ GamePresentation._currentPlayer w' = GamePresentation._currentPlayer w.
Proof.
  unfold GamePresentation.DisplayBoard. intros H.
  apply pbind_Done in H as (? & w1 & r1 & H1 & H).
  apply pbind_Done in H as (b & w2 & r2 & H2 & H).
  apply pbind_Done in H as (text & w3 & r3 & H3 & H).
  apply pbind_Done in H as (? & w4 & r4 & H4 & H).
  unfold GamePresentation.say in *. apply call_Done in H2 as (-> & Hp2 & _).
  unfold GamePresentation.indexing in H3.
  destruct (GameBoard.Display b); [|done].
  simplify_eq. simpl in *. done.
Qed.

(** Lists of integers, two at a time. *)
Lemma list_pair_ind (Q : list Z -> Prop) :
  Q [] -> (forall x, Q [x]) -> (forall x y l, Q l -> Q (x :: y :: l)) ->
  forall l, Q l.
Proof.
  intros Hnil Hone Hstep l.
  assert (Q l /\ forall x, Q (x :: l)) as [H _]; [|exact H].
  induction l as [|y l [IH1 IH2]]; [by split|].
  split; [apply IH2 | intros x; by apply Hstep].
Qed.

Lemma GetPlayerMove_one (x : Z) (w : GamePresentation.World S) :
  GamePresentation.GetPlayerMove [x] w
  = if is_int x
    then GamePresentation.Starved
           (GamePresentation.print
              (GamePresentation.prompt (GamePresentation._currentPlayer w)) w)
    else GamePresentation.Forever
           (GamePresentation.print
              (GamePresentation.prompt (GamePresentation._currentPlayer w)) w).
Proof. cbn. by destruct (is_int x). Qed.

(** A round of [GetPlayerMove] on two numerals that fit. *)
Lemma GetPlayerMove_two (row col : Z) (rest : list Z) (w : GamePresentation.World S) :
  GamePresentation.GetPlayerMove (row :: col :: rest) w
  = let w1 := GamePresentation.print
                (GamePresentation.prompt (GamePresentation._currentPlayer w)) w in
    if is_int row && is_int col then
      match GamePresentation.call
              (GameController.MakeMove row col (GamePresentation._currentPlayer w1))
              rest w1 with
      | GamePresentation.Done true w2 _ => GamePresentation.Done tt w2 rest
      | GamePresentation.Done false w2 _ =>
          GamePresentation.GetPlayerMove rest
            (GamePresentation.print ("Invalid move. Try again." +:+ endl) w2)
      | GamePresentation.Starved w2 => GamePresentation.Starved w2
      | GamePresentation.Undefined => GamePresentation.Undefined
      | GamePresentation.OutOfFuel => GamePresentation.OutOfFuel
      | GamePresentation.Forever w2 => GamePresentation.Forever w2
      end
    else GamePresentation.Forever w1.
Proof. cbn [GamePresentation.GetPlayerMove]. by destruct (is_int row), (is_int col). Qed.

(** A move that [GetPlayerMove] returns from took at least two integers
    and was played by the current player, who is still the current one. *)
Lemma GetPlayerMove_Done (input rest : list Z) (w w' : GamePresentation.World S) :
  GamePresentation.GetPlayerMove input w = GamePresentation.Done tt w' rest ->
  length rest + 2 <= length input
  /\ GamePresentation._currentPlayer w' = GamePresentation._currentPlayer w.
Proof.
  revert w. induction input as [|x|row col input IH] using list_pair_ind;
    intros w; [done | by (rewrite GetPlayerMove_one; destruct (is_int x)) |].
  rewrite GetPlayerMove_two. cbv zeta.
  destruct (is_int row && is_int col) eqn:Hints; [|done].
  destruct (GamePresentation.call _ _ _) as [[|] w2 r2| | | |] eqn:Hcall; [| |done..].
  - apply call_Done in Hcall as (_ & Hp & _). intros [= <- <-].
    simpl in *. split; [lia | done].
  - apply call_Done in Hcall as (_ & Hp & _). intros H.
    apply IH in H as [Hlen H]. simpl in *. split; [lia | congruence].
Qed.

(** One round of the turn loop: it reads at least two integers, and the
    current player is switched exactly when the loop goes on. *)
Lemma StartGame_body_Done (input rest : list Z) (w w' : GamePresentation.World S)
    (ctl : GamePresentation.Ctl) :
  GamePresentation.StartGame_body input w = GamePresentation.Done ctl w' rest ->
  length rest + 2 <= length input
  /\ GamePresentation._currentPlayer w'
     = match ctl with
       | GamePresentation.Continue =>
           GamePresentation.SwitchPlayer_mark (GamePresentation._currentPlayer w)
       | GamePresentation.Break => GamePresentation._currentPlayer w
       end.
Proof.
  unfold GamePresentation.StartGame_body. intros H.
  apply pbind_Done in H as ([] & w1 & r1 & H1 & H).
  apply DisplayBoard_Done in H1 as [-> Hp1].
  apply pbind_Done in H as ([] & w2 & r2 & H2 & H).
  apply GetPlayerMove_Done in H2 as [Hlen Hp2].
  apply pbind_Done in H as (player & w3 & r3 & H3 & H).
  unfold GamePresentation.currentPlayer in H3. injection H3 as <- <- <-.
  apply pbind_Done in H as (won & w4 & r4 & H4 & H).
  apply call_Done in H4 as (-> & Hp4 & _).
  destruct won.
  - apply pbind_Done in H as ([] & w5 & r5 & H5 & H).
    apply DisplayBoard_Done in H5 as [-> Hp5].
    apply pbind_Done in H as ([] & w6 & r6 & H6 & H).
    unfold GamePresentation.say, GamePresentation.pret in *.
    simplify_eq. simpl. split; [lia | congruence].
  - apply pbind_Done in H as (full & w5 & r5 & H5 & H).
    apply call_Done in H5 as (-> & Hp5 & _).
    destruct full.
    + apply pbind_Done in H as ([] & w6 & r6 & H6 & H).
      apply DisplayBoard_Done in H6 as [-> Hp6].
      apply pbind_Done in H as ([] & w7 & r7 & H7 & H).
      unfold GamePresentation.say, GamePresentation.pret in *.
      simplify_eq. simpl. split; [lia | congruence].
    + apply pbind_Done in H as ([] & w6 & r6 & H6 & H).
      unfold GamePresentation.SwitchPlayer, GamePresentation.pret in *.
      simplify_eq. simpl. split; [lia | congruence].
Qed.







(** More fuel than needed changes nothing. *)
Lemma StartGame_loop_more_fuel (fuel fuel' : nat) (input : list Z)
    (w : GamePresentation.World S) :
  length input < fuel -> fuel <= fuel' ->
  GamePresentation.StartGame_loop fuel' input w
  = GamePresentation.StartGame_loop fuel input w.
Proof.
  revert fuel' input w. induction fuel as [|fuel IH]; intros fuel' input w Hlen Hle; [lia|].
  destruct fuel' as [|fuel']; [lia|].
  cbn [GamePresentation.StartGame_loop]. unfold GamePresentation.pbind.
  destruct (GamePresentation.StartGame_body input w) as [ctl w' rest| | | |] eqn:Hbody;
    try done.
  apply StartGame_body_Done in Hbody as [Hrest _].
  destruct ctl; [done|]. apply IH; lia.
Qed.

End AnyService.

(** *** The turn loop in the wiring of [main] *)

Lemma MakeMove_total (row col : Z) (player : ascii) (st : GameRepository.t) :
  GameBoard.wf (GameRepository._board st) ->
  exists ok st',
    GameService.MakeMove row col player st = Some (ok, st')
    /\ GameBoard.wf (GameRepository._board st').
Proof.
  intros Hwf.
  destruct (decide (row < 0 \/ row >= 3 \/ col < 0 \/ col >= 3)%Z) as [Hout|Hin].
  - exists false, st. split; [by apply MakeMove_out_of_range | done].
  - destruct (wf_cell (GameRepository._board st) (Z.to_nat row) (Z.to_nat col) Hwf)
      as [x Hx]; [unfold GameBoard.SIZE; lia ..|].
    rewrite (MakeMove_in_range row col player x st) by (lia || done).
    destruct (Ascii.eqb x Empty); [|by exists false, st].
    destruct (set_cell_Some _ _ _ x player Hx) as (b' & -> & _ & _ & Hwf').
    exists true. eexists. split; [done|]. by apply Hwf'.
Qed.

(** From a 3x3 board, [GetPlayerMove] returns with a 3x3 board, waits
    for input, or never ends. *)
Lemma GetPlayerMove_wf (input : list Z) (w : World) :
  GameBoard.wf (GameRepository._board (GamePresentation._controller w)) ->
  match GamePresentation.GetPlayerMove input w with
  | GamePresentation.Done _ w2 _ =>
      GameBoard.wf (GameRepository._board (GamePresentation._controller w2))
  | GamePresentation.Starved _ => True
  | GamePresentation.Forever _ => True
  | _ => False
  end.
Proof.
  revert w. induction input as [|x|row col input IH] using list_pair_ind;
    intros w Hwf; [done | by (rewrite GetPlayerMove_one; destruct (is_int x)) |].
  rewrite GetPlayerMove_two. cbv zeta.
  destruct (is_int row && is_int col) eqn:Hints; [|done].
  unfold GamePresentation.call.
  cbn [GamePresentation._controller GamePresentation.print
       GamePresentation._currentPlayer].
  change (GameController.MakeMove row col (GamePresentation._currentPlayer w)
            (GamePresentation._controller w))
    with (GameService.MakeMove row col (GamePresentation._currentPlayer w)
            (GamePresentation._controller w)).
  destruct (MakeMove_total row col (GamePresentation._currentPlayer w) _ Hwf)
    as (ok & st' & -> & Hwf').
  destruct ok; [done|]. by apply IH.
Qed.

(** One round from a 3x3 board, spelled out. *)
Lemma StartGame_body_eq (input : list Z) (w : World) :
  GameBoard.wf (GameRepository._board (GamePresentation._controller w)) ->
  match GamePresentation.pbind GamePresentation.DisplayBoard
          (fun _ => GamePresentation.GetPlayerMove) input w with
  | GamePresentation.Done _ w2 rest =>
      let b := GameRepository._board (GamePresentation._controller w2) in
      let p := GamePresentation._currentPlayer w2 in
      GameBoard.wf b
      /\ exists text won,
           GameBoard.Display b = Some text
           /\ GameBoard.IsWinner b p = Some won
           /\ GamePresentation.StartGame_body input w
              = if won then
                  GamePresentation.Done GamePresentation.Break
                    (GamePresentation.print ("Player " +:+ chr p +:+ " wins!" +:+ endl)
                       (GamePresentation.print (endl +:+ text +:+ endl) w2)) rest
                else if GameBoard.IsFull b then
                  GamePresentation.Done GamePresentation.Break
                    (GamePresentation.print ("It's a draw!" +:+ endl)
                       (GamePresentation.print (endl +:+ text +:+ endl) w2)) rest
                else
                  GamePresentation.Done GamePresentation.Continue
                    {| GamePresentation._controller := GamePresentation._controller w2;
                       GamePresentation._currentPlayer :=
                         GamePresentation.SwitchPlayer_mark p;
                       GamePresentation.cout := GamePresentation.cout w2 |} rest
  | GamePresentation.Starved w' =>
      GamePresentation.StartGame_body input w = GamePresentation.Starved w'
  | GamePresentation.Forever w' =>
      GamePresentation.StartGame_body input w = GamePresentation.Forever w'
  | _ => False
  end.
Proof.
  intros Hwf. destruct (Display_wf _ Hwf) as [text0 Htext0].
  unfold GamePresentation.StartGame_body.
  rewrite !(pbind_Done_eq _ _ _ _ _ _ _ (DisplayBoard_eq input w text0 Htext0)).
  pose proof (GetPlayerMove_wf input
                (GamePresentation.print (endl +:+ text0 +:+ endl) w) Hwf) as Hmove.
  destruct (GamePresentation.GetPlayerMove input _) as [[] w2 rest|w'| | |w'] eqn:Hget;
    [|by apply pbind_Starved_eq|done|done|by apply pbind_Forever_eq].
  split; [done|].
  destruct (Display_wf _ Hmove) as [text Htext].
  destruct (IsWinner_lines _ (GamePresentation._currentPlayer w2) Hmove)
    as (won & Hwon & _).
  exists text, won. split; [done|]. split; [done|].
  rewrite (pbind_Done_eq _ _ _ _ _ _ _ Hget).
  rewrite (pbind_Done_eq GamePresentation.currentPlayer _ rest rest w2 w2
             (GamePresentation._currentPlayer w2) eq_refl).
  rewrite (pbind_Done_eq _ _ rest rest w2 w2 won)
    by (apply call_const;
        change (GameService.CheckWinner (GamePresentation._currentPlayer w2)
                  (GamePresentation._controller w2) = Some (won, GamePresentation._controller w2));
        by rewrite CheckWinner_eq, Hwon).
  destruct won.
  - rewrite (pbind_Done_eq _ _ _ _ _ _ _ (DisplayBoard_eq rest w2 text Htext)).
    reflexivity.
  - rewrite (pbind_Done_eq _ _ rest rest w2 w2
               (GameBoard.IsFull (GameRepository._board (GamePresentation._controller w2))))
      by (by apply call_const).
    destruct (GameBoard.IsFull _).
    + rewrite (pbind_Done_eq _ _ _ _ _ _ _ (DisplayBoard_eq rest w2 text Htext)).
      reflexivity.
    + reflexivity.
Qed.

(** C6. In a round of the turn loop in which a move is accepted, the
    winner check for the current player comes first: if it answers true the
    loop is left after the board and "Player p wins!" are written, whether
    or not the board is full; if it answers false and the board is full,
    the loop is left after the board and "It's a draw!" are written;
    otherwise the turn switches and the loop goes round again: the next
    player is not the one who moved, 'O' after 'X' and 'X' after 'O'.
    Once left, the loop has returned: the input that remains is not read
    and the board is the one the accepted move made. *)
Theorem StartGame_round (input rest : list Z) (w w2 : World) :
  GameBoard.wf (GameRepository._board (GamePresentation._controller w)) ->
  GamePresentation.pbind GamePresentation.DisplayBoard
    (fun _ => GamePresentation.GetPlayerMove) input w
  = GamePresentation.Done tt w2 rest ->
  let b := GameRepository._board (GamePresentation._controller w2) in
  let p := GamePresentation._currentPlayer w2 in
  exists text,
    GameBoard.Display b = Some text
    /\ match GameBoard.IsWinner b p with
       | Some true =>
           forall fuel,
             GamePresentation.StartGame_loop (Datatypes.S fuel) input w
             = GamePresentation.Done tt
                 {| GamePresentation._controller := GamePresentation._controller w2;
                    GamePresentation._currentPlayer := p;
                    GamePresentation.cout :=
                      (GamePresentation.cout w2 +:+ endl +:+ text +:+ endl)
                      +:+ "Player " +:+ chr p +:+ " wins!" +:+ endl |}
                 rest
       | Some false =>
           if GameBoard.IsFull b then
             forall fuel,
               GamePresentation.StartGame_loop (Datatypes.S fuel) input w
               = GamePresentation.Done tt
                   {| GamePresentation._controller := GamePresentation._controller w2;
                      GamePresentation._currentPlayer := p;
                      GamePresentation.cout :=
                        (GamePresentation.cout w2 +:+ endl +:+ text +:+ endl)
                        +:+ "It's a draw!" +:+ endl |}
                   rest
           else
             exists next : ascii,
               next <> p
               /\ (p = PlayerX -> next = PlayerO)
               /\ (p = PlayerO -> next = PlayerX)
               /\ (p <> PlayerX -> next = PlayerX)
               /\ forall fuel,
                    GamePresentation.StartGame_loop (Datatypes.S fuel) input w
                    = GamePresentation.StartGame_loop fuel rest
                        {| GamePresentation._controller :=
                             GamePresentation._controller w2;
                           GamePresentation._currentPlayer := next;
                           GamePresentation.cout := GamePresentation.cout w2 |}
       | None => False
       end.
Proof.
  intros Hwf Hmove b p. pose proof (StartGame_body_eq input w Hwf) as Hbody.
  rewrite Hmove in Hbody. destruct Hbody as (_ & text & won & Htext & Hwon & Hbody).
  exists text. split; [done|]. fold b p in Hwon, Hbody. rewrite Hwon.
  destruct won; [|destruct (GameBoard.IsFull b)].
  - intros fuel. cbn [GamePresentation.StartGame_loop].
    by rewrite (pbind_Done_eq _ _ _ _ _ _ _ Hbody).
  - intros fuel. cbn [GamePresentation.StartGame_loop].
    by rewrite (pbind_Done_eq _ _ _ _ _ _ _ Hbody).
  - exists (GamePresentation.SwitchPlayer_mark p).
    assert (GamePresentation.SwitchPlayer_mark p <> p
            /\ (p = PlayerX -> GamePresentation.SwitchPlayer_mark p = PlayerO)
            /\ (p = PlayerO -> GamePresentation.SwitchPlayer_mark p = PlayerX)
            /\ (p <> PlayerX -> GamePresentation.SwitchPlayer_mark p = PlayerX))
      as (Hne & HX & HO & Hother).
    { unfold GamePresentation.SwitchPlayer_mark.
      destruct (Ascii.eqb_spec p PlayerX) as [->|Hp]; [by repeat split|].
      by repeat split. }
    repeat split; try done.
    intros fuel. cbn [GamePresentation.StartGame_loop].
    by rewrite (pbind_Done_eq _ _ _ _ _ _ _ Hbody).
Qed.

(** The winning move of the first position also fills the board; in the
    second, the opening move of 'X', it is the turn of 'O' next. *)
Lemma StartGame_round_witness :
  let w : World :=
    {| GamePresentation._controller :=
         {| GameRepository._board := grid "X" "O" "X" "O" "X" "O" "O" "X" " " |};
       GamePresentation._currentPlayer := "X";
       GamePresentation.cout := EmptyString |} in
  let w0 : World :=
    {| GamePresentation._controller := GameRepository.new;
       GamePresentation._currentPlayer := "X";
       GamePresentation.cout := EmptyString |} in
  (exists text out,
     GameBoard.Display (grid "X" "O" "X" "O" "X" "O" "O" "X" "X") = Some text
     /\ GameBoard.IsFull (grid "X" "O" "X" "O" "X" "O" "O" "X" "X") = true
     /\ forall fuel,
          GamePresentation.StartGame_loop (Datatypes.S fuel) [2; 2; 0; 0]%Z w
          = GamePresentation.Done tt
              {| GamePresentation._controller :=
                   {| GameRepository._board := grid "X" "O" "X" "O" "X" "O" "O" "X" "X" |};
                 GamePresentation._currentPlayer := "X";
                 GamePresentation.cout :=
                   (out +:+ endl +:+ text +:+ endl)
                   +:+ "Player " +:+ chr "X" +:+ " wins!" +:+ endl |}
              [0; 0]%Z)
  /\ (exists out,
        forall fuel,
          GamePresentation.StartGame_loop (Datatypes.S fuel) [0; 0; 1; 1]%Z w0
          = GamePresentation.StartGame_loop fuel [1; 1]%Z
              {| GamePresentation._controller :=
                   {| GameRepository._board := grid "X" " " " " " " " " " " " " " " " " |};
                 GamePresentation._currentPlayer := "O";
                 GamePresentation.cout := out |}).
Proof.
  intros w w0. split.
  - assert (GameBoard.wf (GameRepository._board (GamePresentation._controller w))) as Hwf
      by (split; [reflexivity | repeat constructor]).
    destruct (StartGame_round [2; 2; 0; 0]%Z [0; 0]%Z w _ Hwf eq_refl)
      as (text & Htext & Hloop).
    exists text. eexists. split; [exact Htext|]. split; [reflexivity|]. exact Hloop.
  - destruct (StartGame_round [0; 0; 1; 1]%Z [1; 1]%Z w0 _ new_wf eq_refl)
      as (text & _ & next & _ & HX & _ & _ & Hloop).
    rewrite (HX eq_refl) in Hloop. eexists. exact Hloop.
Defined.

(** C7. The first player is 'X', and the players alternate: when the turn
    loop is at its head after [n] rounds that ended in [SwitchPlayer], the
    current player is 'X' for even [n] and 'O' for odd [n], and switching
    twice from there gives the same player back. *)
Theorem players_alternate {S : Type} {_service : IGameService.t S}
    (n : nat) (input : list Z) (w : GamePresentation.World S) :
  loop_head n input w ->
  GamePresentation._currentPlayer w = (if Nat.even n then PlayerX else PlayerO)
  /\ GamePresentation.SwitchPlayer_mark
       (GamePresentation.SwitchPlayer_mark (GamePresentation._currentPlayer w))
     = GamePresentation._currentPlayer w
  /\ forall controller : S,
       GamePresentation._currentPlayer (GamePresentation.new controller) = PlayerX.
Proof.
  intros Hhead.
  assert (GamePresentation._currentPlayer w = if Nat.even n then PlayerX else PlayerO)
    as Hplayer.
  { induction Hhead as [controller input w Hstart|n input rest w w' _ IH Hbody].
    - apply pbind_Done in Hstart as ([] & w1 & r1 & Hsay & Hcall).
      apply call_Done in Hcall as (_ & -> & _).
      unfold GamePresentation.say in Hsay. by simplify_eq.
    - apply StartGame_body_Done in Hbody as [_ ->]. rewrite IH.
      rewrite Nat.even_succ, <- Nat.negb_even. by destruct (Nat.even n). }
  split; [done|]. split; [|done].
  rewrite Hplayer. by destruct (Nat.even n).
Qed.

Lemma players_alternate_witness :
  exists w : World,
    loop_head 3 [] w
    /\ GamePresentation._currentPlayer w = PlayerO
    /\ GamePresentation.SwitchPlayer_mark
         (GamePresentation.SwitchPlayer_mark (GamePresentation._currentPlayer w))
       = GamePresentation._currentPlayer w.
Proof.
  assert (exists w : World, loop_head 3 [] w) as [w Hw].
  { eexists.
    eapply loop_head_next; [eapply loop_head_next; [eapply loop_head_next|]|].
    - apply (loop_head_first GameRepository.new [0; 0; 7; 7; 1; 1; 0; 1]%Z). reflexivity.
    - vm_compute. reflexivity.
    - vm_compute. reflexivity.
    - vm_compute. reflexivity. }
  exists w. split; [exact Hw|].
  destruct (players_alternate 3 [] w Hw) as (Hplayer & Htwice & _). by split.
Defined.

(** *** [main] is defined *)


(** Why a failed extraction never ends.  The variable that the numeral
    was read into holds INT_MIN or INT_MAX; whatever the other one holds,
    [MakeMove] refuses the pair without looking at the board, on this round
    and, nothing being read any more, on every later one. *)
Lemma MakeMove_after_overflow (z other : Z) (player : ascii) (st : GameRepository.t) :
  is_int z = false ->
  GameService.MakeMove (stored z) other player st = Some (false, st)
  /\ GameService.MakeMove other (stored z) player st = Some (false, st).
Proof.
  unfold is_int, stored, INT_MIN, INT_MAX. intros Hz.
  split; apply MakeMove_out_of_range; repeat case_match; lia.
Qed.



Lemma StartGame_eq (fuel : nat) (input : list Z) (w : World) :
  GamePresentation.StartGame fuel input w
  = GamePresentation.StartGame_loop fuel input
      {| GamePresentation._controller := GameRepository.new;
         GamePresentation._currentPlayer := GamePresentation._currentPlayer w;
         GamePresentation.cout :=
           GamePresentation.cout w +:+ "Welcome to Tic-Tac-Toe!" +:+ endl |}.
Proof. reflexivity. Qed.



(** Scenario A of the specification. *)
Example main_scenario_A :
  exists w,
    main [0; 0; 1; 1; 0; 1; 2; 2; 0; 2]%Z = GamePresentation.Done tt w []
    /\ GameRepository._board (GamePresentation._controller w)
       = grid "X" "X" "X" " " "O" " " " " " " "O".
Proof. eexists. split; vm_compute; reflexivity. Qed.

(** * Further properties of the code *)

(** ** Counting marks *)

Lemma count_row_insert (mark v x : ascii) (row : list ascii) (j : nat) :
  row !! j = Some x ->
  count_row mark (<[j := v]> row) + one_if x mark = count_row mark row + one_if v mark.
Proof.
  unfold count_row, one_if. revert j.
  induction row as [|c row IH]; intros j Hj; [done|].
  destruct j as [|j]; simpl in *.
  - simplify_eq. rewrite !filter_cons.
    repeat case_decide; simpl; lia.
  - specialize (IH j Hj). rewrite !filter_cons.
    repeat case_decide; simpl in *; lia.
Qed.

Lemma sum_list_insert (l : list nat) (i x y : nat) :
  l !! i = Some x -> sum_list (<[i := y]> l) + x = sum_list l + y.
Proof.
  revert i. induction l as [|z l IH]; intros i Hi; [done|].
  destruct i as [|i]; simpl in *.
  - simplify_eq. lia.
  - specialize (IH i Hi). lia.
Qed.

(** Writing [v] over [x] moves one unit from the count of [x] to that of [v]. *)
Lemma set_cell_count (b b' : GameBoard.t) (i j : nat) (x v mark : ascii) :
  GameBoard.cell b i j = Some x ->
  GameBoard.set_cell b i j v = Some b' ->
  count_mark b' mark + one_if x mark = count_mark b mark + one_if v mark.
Proof.
  unfold GameBoard.cell, GameBoard.set_cell, count_mark.
  destruct (GameBoard.board b !! i) as [line|] eqn:Hline; [|done].
  intros Hx. case_decide; [|done]. intros [= <-]. simpl.
  rewrite list_fmap_insert.
  pose proof (sum_list_insert (count_row mark <$> GameBoard.board b) i
                (count_row mark line) (count_row mark (<[j := v]> line))) as Hsum.
  rewrite list_lookup_fmap, Hline in Hsum. specialize (Hsum eq_refl).
  pose proof (count_row_insert mark v x line j Hx). lia.
Qed.

Lemma IsFull_row_count (row : list ascii) :
  GameBoard.IsFull_row row = true <-> count_row Empty row = 0.
Proof.
  unfold count_row. induction row as [|c row IH]; simpl; [done|].
  rewrite filter_cons. destruct (Ascii.eqb_spec c Empty) as [->|Hne].
  - rewrite decide_True by done. simpl. split; [done | lia].
  - by rewrite decide_False.
Qed.

(** [IsFull] answers true exactly when no cell is blank, on a grid of any
    shape. *)
Lemma IsFull_count (b : GameBoard.t) :
  GameBoard.IsFull b = true <-> count_mark b Empty = 0.
Proof.
  unfold GameBoard.IsFull, count_mark.
  induction (GameBoard.board b) as [|row rows0 IH]; [done|].
  rewrite fmap_cons. cbn [GameBoard.IsFull_rows].
  change (sum_list (count_row Empty row :: (count_row Empty <$> rows0)))
    with (count_row Empty row + sum_list (count_row Empty <$> rows0)).
  destruct (GameBoard.IsFull_row row) eqn:Hrow.
  - apply IsFull_row_count in Hrow. rewrite IH. lia.
  - split; [done|]. intros Hsum.
    assert (count_row Empty row = 0) as H0 by lia.
    apply IsFull_row_count in H0. congruence.
Qed.

(** ** What a call of [MakeMove] did, read off its result *)

Lemma MakeMove_inv (row col : Z) (player : ascii) (ok : bool) (st st' : GameRepository.t) :
  GameService.MakeMove row col player st = Some (ok, st') ->
  if ok then
    (0 <= row < 3)%Z /\ (0 <= col < 3)%Z
    /\ GameBoard.cell (GameRepository._board st) (Z.to_nat row) (Z.to_nat col) = Some Empty
    /\ GameBoard.set_cell (GameRepository._board st) (Z.to_nat row) (Z.to_nat col) player
       = Some (GameRepository._board st')
  else st' = st.
Proof.
  destruct (decide (row < 0 \/ row >= 3 \/ col < 0 \/ col >= 3)%Z) as [Hout|Hin].
  - rewrite MakeMove_out_of_range by done. by intros [= <- <-].
  - destruct (GameBoard.cell (GameRepository._board st) (Z.to_nat row) (Z.to_nat col))
      as [x|] eqn:Hx.
    + rewrite (MakeMove_in_range row col player x st) by (lia || done).
      destruct (Ascii.eqb_spec x Empty) as [->|Hne]; [|by intros [= <- <-]].
      destruct (GameBoard.set_cell _ _ _ _) as [b'|] eqn:Hset; [|done].
      intros [= <- <-]. simpl. repeat split; (lia || done).
    + unfold GameService.MakeMove. rewrite decide_False by (unfold GameBoard.SIZE; lia).
      unfold bind, lift. simpl. unfold GameRepository.GetBoard. by rewrite Hx.
Qed.

Lemma set_cell_in_grid (b b' : GameBoard.t) (i j : nat) (v : ascii) :
  GameBoard.wf b -> GameBoard.set_cell b i j v = Some b' ->
  i < 3 /\ j < 3 /\ is_Some (GameBoard.cell b i j).
Proof.
  intros [Hlen Hall]. unfold GameBoard.set_cell, GameBoard.cell, GameBoard.SIZE in *.
  destruct (GameBoard.board b !! i) as [line|] eqn:Hline; [|done].
  case_decide as Hj; [|done]. intros _.
  rewrite Forall_lookup in Hall. pose proof (Hall _ _ Hline) as Hline3.
  apply lookup_lt_Some in Hline.
  split; [lia|]. split; [lia|]. by apply lookup_lt_is_Some_2.
Qed.

(** ** GameRepository *)

(** X1. [SaveMove] checks nothing.  On a 3x3 board it is defined exactly
    for indices in [0,3) x [0,3); there it writes the mark into the cell
    whatever the cell held, and leaves the other cells as they were. *)
Theorem SaveMove_unchecked (row col : Z) (player : ascii) (st : GameRepository.t) :
  GameBoard.wf (GameRepository._board st) ->
  (is_Some (GameRepository.SaveMove row col player st)
   <-> (0 <= row < 3)%Z /\ (0 <= col < 3)%Z)
  /\ forall st',
       GameRepository.SaveMove row col player st = Some (tt, st') ->
       GameBoard.cell (GameRepository._board st') (Z.to_nat row) (Z.to_nat col)
       = Some player
       /\ (forall i j, (i, j) <> (Z.to_nat row, Z.to_nat col) ->
             GameBoard.cell (GameRepository._board st') i j
             = GameBoard.cell (GameRepository._board st) i j)
       /\ GameBoard.wf (GameRepository._board st').
Proof.
  intros Hwf. unfold GameRepository.SaveMove. split.
  - split.
    + intros [[[] st'] Hsave]. case_decide as Hpos; [|done].
      destruct (GameBoard.set_cell _ _ _ _) as [b'|] eqn:Hset; [|done].
      apply (set_cell_in_grid _ _ _ _ _ Hwf) in Hset. lia.
    + intros [Hrow Hcol]. rewrite decide_True by lia.
      destruct (wf_cell (GameRepository._board st) (Z.to_nat row) (Z.to_nat col) Hwf)
        as [x Hx]; [unfold GameBoard.SIZE; lia ..|].
      destruct (set_cell_Some _ _ _ x player Hx) as (b' & -> & _). eauto.
  - intros st'. case_decide as Hpos; [|done].
    destruct (GameBoard.set_cell _ _ _ _) as [b'|] eqn:Hset; [|done].
    intros [= <-]. simpl.
    destruct (set_cell_in_grid _ _ _ _ _ Hwf Hset) as (_ & _ & [x Hx]).
    destruct (set_cell_Some _ _ _ x player Hx) as (b'' & Hset' & Hnew & Hold & Hwf').
    rewrite Hset in Hset'. injection Hset' as <-. auto.
Qed.

(** An occupied cell is overwritten. *)
Lemma SaveMove_unchecked_witness :
  let st := {| GameRepository._board := grid "X" " " " " " " "O" " " " " " " " " |} in
  exists st',
    GameRepository.SaveMove 0 0 "O" st = Some (tt, st')
    /\ GameBoard.cell (GameRepository._board st') 0 0 = Some "O"%char
    /\ GameRepository.SaveMove 0 3 "O" st = None.
Proof.
  intros st.
  assert (GameBoard.wf (GameRepository._board st)) as Hwf
    by (split; [reflexivity | repeat constructor]).
  eexists. split; [reflexivity|]. split.
  - by apply (proj2 (SaveMove_unchecked 0 0 "O" st Hwf) _ eq_refl).
  - reflexivity.
Defined.

(** ** GameService *)

(** X2. [MakeMove] never touches a cell that holds a mark: whatever the
    arguments and whatever the call returns, a cell that was not blank
    before the call holds the same mark after it. *)
Theorem MakeMove_keeps_marks (row col : Z) (player x : ascii) (ok : bool)
    (st st' : GameRepository.t) (i j : nat) :
  GameBoard.cell (GameRepository._board st) i j = Some x -> x <> Empty ->
  GameService.MakeMove row col player st = Some (ok, st') ->
  GameBoard.cell (GameRepository._board st') i j = Some x.
Proof.
  intros Hx Hne Hmove. apply MakeMove_inv in Hmove. destruct ok; [|by subst].
  destruct Hmove as (_ & _ & Hblank & Hset).
  destruct (set_cell_Some _ _ _ Empty player Hblank) as (b' & Hset' & _ & Hold & _).
  rewrite Hset in Hset'. injection Hset' as <-.
  rewrite Hold; [done|]. intros [= -> ->]. congruence.
Qed.

Lemma MakeMove_keeps_marks_witness :
  let st := {| GameRepository._board := grid "X" " " " " " " "O" " " " " " " " " |} in
  exists ok st',
    GameService.MakeMove 0 0 "O" st = Some (ok, st')
    /\ GameBoard.cell (GameRepository._board st') 0 0 = Some "X"%char.
Proof.
  intros st. exists false, st. split; [reflexivity|].
  apply (MakeMove_keeps_marks 0 0 "O" "X" false st st 0 0);
    [reflexivity | discriminate | reflexivity].
Defined.

(** X3. Two moves on one cell: when [MakeMove r c p] with a mark [p] other
    than the blank is accepted, every later [MakeMove r c q] is refused,
    leaves the state alone, and the cell keeps [p]. *)
Theorem MakeMove_twice (r c : Z) (p q : ascii) (st st1 : GameRepository.t) :
  p <> Empty ->
  GameService.MakeMove r c p st = Some (true, st1) ->
  GameService.MakeMove r c q st1 = Some (false, st1)
  /\ GameBoard.cell (GameRepository._board st1) (Z.to_nat r) (Z.to_nat c) = Some p.
Proof.
  intros Hp Hmove. apply MakeMove_inv in Hmove as (Hr & Hc & Hblank & Hset).
  destruct (set_cell_Some _ _ _ Empty p Hblank) as (b' & Hset' & Hnew & _).
  rewrite Hset in Hset'. injection Hset' as <-. split; [|done].
  rewrite (MakeMove_in_range r c q p st1 Hr Hc Hnew).
  by destruct (Ascii.eqb_spec p Empty).
Qed.

Lemma MakeMove_twice_witness :
  exists st1,
    GameService.MakeMove 0 0 "X" GameRepository.new = Some (true, st1)
    /\ GameService.MakeMove 0 0 "O" st1 = Some (false, st1)
    /\ GameBoard.cell (GameRepository._board st1) 0 0 = Some "X"%char.
Proof.
  eexists. split; [reflexivity|].
  apply (MakeMove_twice 0 0 "X" "O" GameRepository.new); [discriminate | reflexivity].
Defined.

(** X4. An accepted move with a mark [p] other than the blank fills one
    blank cell: one blank fewer, one [p] more, and as many of every
    other mark as before. *)
Theorem MakeMove_counts (r c : Z) (p : ascii) (st st' : GameRepository.t) :
  p <> Empty ->
  GameService.MakeMove r c p st = Some (true, st') ->
  count_mark (GameRepository._board st') Empty + 1
  = count_mark (GameRepository._board st) Empty
  /\ count_mark (GameRepository._board st') p
     = count_mark (GameRepository._board st) p + 1
  /\ forall mark, mark <> p -> mark <> Empty ->
       count_mark (GameRepository._board st') mark
       = count_mark (GameRepository._board st) mark.
Proof.
  intros Hp Hmove. apply MakeMove_inv in Hmove as (_ & _ & Hblank & Hset).
  pose proof (fun mark => set_cell_count _ _ _ _ _ _ mark Hblank Hset) as Hcount.
  unfold one_if in Hcount. split; [|split].
  - specialize (Hcount Empty). rewrite decide_True, decide_False in Hcount by done. lia.
  - specialize (Hcount p).
    rewrite decide_False, decide_True in Hcount by (done || congruence). lia.
  - intros mark Hmp Hme. specialize (Hcount mark).
    rewrite !decide_False in Hcount by congruence. lia.
Qed.

Lemma MakeMove_counts_witness :
  exists st',
    GameService.MakeMove 1 1 "X" GameRepository.new = Some (true, st')
    /\ count_mark (GameRepository._board st') Empty + 1
       = count_mark (GameRepository._board GameRepository.new) Empty
    /\ count_mark (GameRepository._board st') "X"
       = count_mark (GameRepository._board GameRepository.new) "X" + 1.
Proof.
  eexists. split; [reflexivity|].
  destruct (MakeMove_counts 1 1 "X" GameRepository.new _ ltac:(discriminate) eq_refl)
    as (Hblank & Hmark & _).
  by split.
Defined.

(** X5. Right after [ResetGame], [MakeMove] accepts every mark at every
    coordinate inside the grid and refuses every coordinate outside it. *)
Theorem MakeMove_after_reset (r c : Z) (p : ascii) (st : GameRepository.t) :
  exists st0 ok st1,
    GameService.ResetGame st = Some (tt, st0)
    /\ GameService.MakeMove r c p st0 = Some (ok, st1)
    /\ (ok = true <-> (0 <= r < 3)%Z /\ (0 <= c < 3)%Z).
Proof.
  exists GameRepository.new.
  destruct (decide (r < 0 \/ r >= 3 \/ c < 0 \/ c >= 3)%Z) as [Hout|Hin].
  - exists false, GameRepository.new. split; [done|].
    split; [by apply MakeMove_out_of_range|]. split; [done | lia].
  - destruct (wf_cell GameBoard.new (Z.to_nat r) (Z.to_nat c) new_wf) as [x Hx];
      [unfold GameBoard.SIZE; lia ..|].
    assert (x = Empty) as ->.
    { assert (Z.to_nat r < 3 /\ Z.to_nat c < 3) as [Hr Hc] by lia.
      revert Hx. generalize (Z.to_nat r) (Z.to_nat c) Hr Hc. clear.
      intros [|[|[|i]]] [|[|[|j]]] Hi Hj; try lia; by intros [= <-]. }
    destruct (set_cell_Some _ _ _ Empty p Hx) as (b' & Hset & _).
    exists true, {| GameRepository._board := b' |}. split; [done|]. split.
    + rewrite (MakeMove_in_range r c p Empty GameRepository.new) by (lia || done).
      simpl. change (GameRepository._board GameRepository.new) with GameBoard.new.
      by rewrite Hset.
    + split; [lia | done].
Qed.

(** X6. Completing a line wins: on a 3x3 board, when the cell (r,c) is
    blank and the other cells of one of the eight lines through it hold
    [p], [MakeMove r c p] is accepted and [CheckWinner p] then answers
    true. *)
Theorem MakeMove_completes_line (r c : Z) (p : ascii) (st : GameRepository.t)
    (line : list (nat * nat)) :
  GameBoard.wf (GameRepository._board st) ->
  (0 <= r)%Z -> (0 <= c)%Z ->
  line ∈ lines -> (Z.to_nat r, Z.to_nat c) ∈ line ->
  GameBoard.cell (GameRepository._board st) (Z.to_nat r) (Z.to_nat c) = Some Empty ->
  (forall ij, ij ∈ line -> ij <> (Z.to_nat r, Z.to_nat c) ->
     GameBoard.cell (GameRepository._board st) ij.1 ij.2 = Some p) ->
  exists st',
    GameService.MakeMove r c p st = Some (true, st')
    /\ GameService.CheckWinner p st' = Some (true, st').
Proof.
  intros Hwf Hr Hc Hline Hin Hblank Hrest.
  destruct (set_cell_Some _ _ _ Empty p Hblank) as (b' & Hset & Hnew & Hold & Hwf').
  destruct (set_cell_in_grid _ _ _ _ _ Hwf Hset) as (Hi & Hj & _).
  exists {| GameRepository._board := b' |}. split.
  - rewrite (MakeMove_in_range r c p Empty st) by (lia || done). simpl. by rewrite Hset.
  - rewrite CheckWinner_eq. simpl.
    destruct (IsWinner_lines b' p (Hwf' Hwf)) as (answer & -> & Hanswer).
    replace answer with true; [done|]. symmetry. apply Hanswer.
    exists line. split; [done|]. apply Forall_forall. intros [i j] Hij.
    destruct (decide ((i, j) = (Z.to_nat r, Z.to_nat c))) as [[= -> ->]|Hne]; [done|].
    rewrite Hold by done. by apply (Hrest (i, j)).
Qed.

Lemma MakeMove_completes_line_witness :
  let st := {| GameRepository._board := grid "X" "O" " " "O" "X" " " " " " " " " |} in
  exists st',
    GameService.MakeMove 2 2 "X" st = Some (true, st')
    /\ GameService.CheckWinner "X" st' = Some (true, st').
Proof.
  intros st.
  apply (MakeMove_completes_line 2 2 "X" st [(0, 0); (1, 1); (2, 2)]).
  - split; [reflexivity | repeat constructor].
  - lia.
  - lia.
  - unfold lines, rows, columns, diagonals. repeat constructor.
  - repeat constructor.
  - reflexivity.
  - intros ij Hij Hne.
    apply elem_of_cons in Hij as [->|Hij]; [reflexivity|].
    apply elem_of_cons in Hij as [->|Hij]; [reflexivity|].
    apply elem_of_cons in Hij as [->|Hij]; [by destruct Hne|].
    by apply elem_of_nil in Hij.
Defined.

Lemma MakeMove_refused (row col : Z) (player : ascii) (st : GameRepository.t) :
  GameBoard.wf (GameRepository._board st) ->
  (row < 0 \/ row >= 3)%Z \/ (col < 0 \/ col >= 3)%Z
  \/ GameBoard.cell (GameRepository._board st) (Z.to_nat row) (Z.to_nat col) <> Some Empty ->
  GameService.MakeMove row col player st = Some (false, st).
Proof.
  intros Hwf Hrej.
  destruct (decide (row < 0 \/ row >= 3 \/ col < 0 \/ col >= 3)%Z) as [Hout|Hin];
    [by apply MakeMove_out_of_range|].
  destruct (wf_cell (GameRepository._board st) (Z.to_nat row) (Z.to_nat col) Hwf)
    as [x Hx]; [unfold GameBoard.SIZE; lia ..|].
  rewrite (MakeMove_in_range row col player x st) by (lia || done).
  destruct (Ascii.eqb_spec x Empty) as [->|Hne]; [|done].
  destruct Hrej as [?|[?|Hocc]]; [lia | lia | done].
Qed.

(** ** GamePresentation *)

(** X7. A refused move costs the player nothing but a message.  With a
    3x3 board, when the two numerals read fit an [int] and the pair is
    outside the grid or names a cell that is not blank, [GetPlayerMove]
    writes the prompt and "Invalid move. Try again.", and goes on with the
    rest of the input, the board and the current player being as they
    were. *)
Theorem GetPlayerMove_refuses (row col : Z) (rest : list Z) (w : World) :
  GameBoard.wf (GameRepository._board (GamePresentation._controller w)) ->
  (INT_MIN <= row <= INT_MAX)%Z -> (INT_MIN <= col <= INT_MAX)%Z ->
  (row < 0 \/ row >= 3)%Z \/ (col < 0 \/ col >= 3)%Z
  \/ GameBoard.cell (GameRepository._board (GamePresentation._controller w))
       (Z.to_nat row) (Z.to_nat col) <> Some Empty ->
  GamePresentation.GetPlayerMove (row :: col :: rest) w
  = GamePresentation.GetPlayerMove rest
      {| GamePresentation._controller := GamePresentation._controller w;
         GamePresentation._currentPlayer := GamePresentation._currentPlayer w;
         GamePresentation.cout :=
           GamePresentation.cout w
           +:+ GamePresentation.prompt (GamePresentation._currentPlayer w)
           +:+ "Invalid move. Try again." +:+ endl |}.
Proof.
  intros Hwf Hrow Hcol Hrej. rewrite GetPlayerMove_two. cbv zeta.
  replace (is_int row) with true by (symmetry; unfold is_int; lia).
  replace (is_int col) with true by (symmetry; unfold is_int; lia).
  cbn [andb]. unfold GamePresentation.call.
  cbn [GamePresentation._controller GamePresentation.print
       GamePresentation._currentPlayer].
  change (GameController.MakeMove row col (GamePresentation._currentPlayer w)
            (GamePresentation._controller w))
    with (GameService.MakeMove row col (GamePresentation._currentPlayer w)
            (GamePresentation._controller w)).
  rewrite (MakeMove_refused _ _ _ _ Hwf Hrej).
  f_equal. unfold GamePresentation.print. simpl. f_equal. apply append_assoc.
Qed.

Lemma GetPlayerMove_refuses_witness :
  let w : World :=
    {| GamePresentation._controller :=
         {| GameRepository._board := grid "X" " " " " " " " " " " " " " " " " |};
       GamePresentation._currentPlayer := "O";
       GamePresentation.cout := EmptyString |} in
  GamePresentation.GetPlayerMove [0; 0; 1; 1]%Z w
  = GamePresentation.GetPlayerMove [1; 1]%Z
      {| GamePresentation._controller := GamePresentation._controller w;
         GamePresentation._currentPlayer := "O";
         GamePresentation.cout :=
           EmptyString +:+ GamePresentation.prompt "O"
           +:+ "Invalid move. Try again." +:+ endl |}.
Proof.
  intros w. apply (GetPlayerMove_refuses 0 0 [1; 1]%Z w).
  - split; [reflexivity | repeat constructor].
  - unfold INT_MIN, INT_MAX. lia.
  - unfold INT_MIN, INT_MAX. lia.
  - right. right. simpl. discriminate.
Defined.

(** In the wiring of [main], [GetPlayerMove] returns after writing the
    current player's mark into one blank cell, and nothing else. *)
Lemma GetPlayerMove_move (input rest : list Z) (w w2 : World) :
  GamePresentation.GetPlayerMove input w = GamePresentation.Done tt w2 rest ->
  GamePresentation._currentPlayer w2 = GamePresentation._currentPlayer w
  /\ exists i j,
       GameBoard.cell (GameRepository._board (GamePresentation._controller w)) i j
       = Some Empty
       /\ GameBoard.set_cell (GameRepository._board (GamePresentation._controller w))
            i j (GamePresentation._currentPlayer w)
          = Some (GameRepository._board (GamePresentation._controller w2)).
Proof.
  revert w. induction input as [|x|row col input IH] using list_pair_ind;
    intros w; [done | by (rewrite GetPlayerMove_one; destruct (is_int x)) |].
  rewrite GetPlayerMove_two. cbv zeta.
  destruct (is_int row && is_int col) eqn:Hints; [|done].
  destruct (GamePresentation.call _ _ _) as [ok w1 r1| | | |] eqn:Hcall; [|done..].
  apply call_Done in Hcall as (_ & Hp & _ & Hmove).
  cbn [GamePresentation._controller GamePresentation.print
       GamePresentation._currentPlayer] in Hp, Hmove.
  apply MakeMove_inv in Hmove. destruct ok.
  - intros [= <- <-]. split; [done|].
    destruct Hmove as (_ & _ & Hblank & Hset). eauto.
  - intros Hrest. apply IH in Hrest as [Hp2 (i & j & Hblank & Hset)].
    cbn [GamePresentation._controller GamePresentation.print
         GamePresentation._currentPlayer] in Hp2, Hblank, Hset.
    rewrite Hmove, Hp in *. eauto.
Qed.

(** One round of the turn loop in the wiring of [main], read off its
    result. *)
Lemma StartGame_body_inv (input rest : list Z) (w w' : World)
    (ctl : GamePresentation.Ctl) :
  GameBoard.wf (GameRepository._board (GamePresentation._controller w)) ->
  GamePresentation.StartGame_body input w = GamePresentation.Done ctl w' rest ->
  let b := GameRepository._board (GamePresentation._controller w) in
  let b' := GameRepository._board (GamePresentation._controller w') in
  let p := GamePresentation._currentPlayer w in
  GameBoard.wf b'
  /\ (exists i j, GameBoard.cell b i j = Some Empty
                  /\ GameBoard.set_cell b i j p = Some b')
  /\ match ctl with
     | GamePresentation.Continue =>
         GamePresentation._currentPlayer w' = GamePresentation.SwitchPlayer_mark p
         /\ GameBoard.IsWinner b' p = Some false
         /\ GameBoard.IsFull b' = false
     | GamePresentation.Break =>
         GamePresentation._currentPlayer w' = p
         /\ exists out,
              (GameBoard.IsWinner b' p = Some true
               /\ GamePresentation.cout w'
                  = out +:+ "Player " +:+ chr p +:+ " wins!" +:+ endl)
              \/ (GameBoard.IsWinner b' p = Some false
                  /\ GameBoard.IsFull b' = true
                  /\ GamePresentation.cout w' = out +:+ "It's a draw!" +:+ endl)
     end.
Proof.
  intros Hwf Hbody b b' p. pose proof (StartGame_body_eq input w Hwf) as Heq.
  destruct (GamePresentation.pbind GamePresentation.DisplayBoard _ input w)
    as [[] w2 rest2|w2| | |w2] eqn:Hmove; [|congruence|done|done|congruence].
  destruct Heq as (Hwf2 & text & won & _ & Hwon & Heq).
  apply pbind_Done in Hmove as ([] & w1 & r1 & Hshow & Hmove).
  destruct (Display_wf _ Hwf) as [text0 Htext0].
  rewrite (DisplayBoard_eq input w text0 Htext0) in Hshow. injection Hshow as <- <-.
  apply GetPlayerMove_move in Hmove as [Hp Hset].
  cbn [GamePresentation._controller GamePresentation.print
       GamePresentation._currentPlayer] in Hp, Hset.
  rewrite Hp in Hwon, Heq. rewrite Heq in Hbody. clear Heq.
  destruct won; [|destruct (GameBoard.IsFull _) eqn:Hfull];
    injection Hbody as <- <- <-; subst b b' p;
    cbn [GamePresentation._controller GamePresentation.print
         GamePresentation._currentPlayer GamePresentation.cout].
  - split; [done|]. split; [done|]. split; [done|]. eexists. left. split; [done|].
    by rewrite <- !append_assoc.
  - split; [done|]. split; [done|]. split; [done|]. eexists. right.
    split; [done|]. split; [done|]. by rewrite <- !append_assoc.
  - split; [done|]. split; [done|]. by repeat split.
Qed.

(** ** The game as a whole, in the wiring of [main] *)

Lemma one_if_same (c : ascii) : one_if c c = 1.
Proof. unfold one_if. by rewrite decide_True. Qed.

Lemma one_if_other (c mark : ascii) : c <> mark -> one_if c mark = 0.
Proof. intros H. unfold one_if. by rewrite decide_False. Qed.

(** Writing a mark other than [q] cannot complete a line of [q]. *)
Lemma no_new_line (b b' : GameBoard.t) (i j : nat) (x v q : ascii) :
  GameBoard.wf b ->
  GameBoard.cell b i j = Some x -> GameBoard.set_cell b i j v = Some b' ->
  v <> q ->
  GameBoard.IsWinner b q = Some false -> GameBoard.IsWinner b' q = Some false.
Proof.
  intros Hwf Hx Hset Hvq Hno.
  destruct (set_cell_Some _ _ _ x v Hx) as (b'' & Hset' & Hnew & Hold & Hwf').
  rewrite Hset in Hset'. injection Hset' as <-.
  destruct (IsWinner_lines b q Hwf) as (answer & Hanswer & Hiff).
  rewrite Hno in Hanswer. injection Hanswer as <-.
  destruct (IsWinner_lines b' q (Hwf' Hwf)) as ([|] & -> & Hiff'); [|done].
  exfalso. destruct (proj1 Hiff' eq_refl) as (line & Hin & Hline).
  assert (false = true) as Habs; [|done].
  apply Hiff. exists line. split; [done|].
  unfold line_of in *. rewrite Forall_forall in Hline. apply Forall_forall.
  intros [i' j'] Hij. specialize (Hline _ Hij). simpl in *.
  destruct (decide ((i', j') = (i, j))) as [[= -> ->]|Hne]; [congruence|].
  by rewrite <- Hold.
Qed.

(** What holds each time the turn loop is entered. *)
Lemma loop_head_inv (n : nat) (input : list Z) (w : World) :
  loop_head n input w ->
  let b := GameRepository._board (GamePresentation._controller w) in
  GameBoard.wf b
  /\ GamePresentation._currentPlayer w = (if Nat.even n then PlayerX else PlayerO)
  /\ count_mark b PlayerX + count_mark b PlayerO = n
  /\ count_mark b PlayerX = count_mark b PlayerO + (if Nat.even n then 0 else 1)
  /\ count_mark b Empty + n = 9
  /\ GameBoard.IsFull b = false
  /\ GameBoard.IsWinner b PlayerX = Some false
  /\ GameBoard.IsWinner b PlayerO = Some false.
Proof.
  induction 1 as [controller input w Hstart|n input rest w w' _ IH Hbody].
  - apply pbind_Done in Hstart as ([] & w1 & r1 & Hsay & Hcall).
    apply call_Done in Hcall as (_ & Hp & _ & Hreset).
    injection Hsay as <- <-. injection Hreset as <-.
    simpl in Hp. rewrite Hp. simpl GameRepository._board.
    split; [apply new_wf|]. split; [done|]. repeat split; by vm_compute.
  - destruct IH as (Hwf & Hp & Hsum & Hdiff & Hblank & _ & HX & HO).
    apply (StartGame_body_inv _ _ _ _ _ Hwf) in Hbody
      as (Hwf' & (i & j & Hcell & Hset) & Hp' & Hwin & Hfull).
    pose proof (fun mark => set_cell_count _ _ _ _ _ _ mark Hcell Hset) as Hcount.
    pose proof (Hcount Empty) as HcE. pose proof (Hcount PlayerX) as HcX.
    pose proof (Hcount PlayerO) as HcO. clear Hcount.
    rewrite Hp in *. rewrite Nat.even_succ, <- Nat.negb_even.
    rewrite one_if_same in HcE. rewrite (one_if_other Empty PlayerX) in HcX by done.
    rewrite (one_if_other Empty PlayerO) in HcO by done.
    destruct (Nat.even n); simpl negb; cbv iota.
    + rewrite one_if_same in HcX. rewrite (one_if_other PlayerX PlayerO) in HcO by done.
      rewrite (one_if_other PlayerX Empty) in HcE by done.
      split; [done|]. repeat split; try done; try lia.
      by apply (no_new_line _ _ _ _ _ PlayerX PlayerO Hwf Hcell Hset).
    + rewrite one_if_same in HcO. rewrite (one_if_other PlayerO PlayerX) in HcX by done.
      rewrite (one_if_other PlayerO Empty) in HcE by done.
      split; [done|]. repeat split; try done; try lia.
      by apply (no_new_line _ _ _ _ _ PlayerO PlayerX Hwf Hcell Hset).
Qed.

(** X8. Each time the turn loop is entered, after [n] rounds, the board
    is 3x3 and holds exactly [n] marks: as many 'X' as 'O' when [n] is
    even, one 'X' more when [n] is odd, and [9 - n] blanks.  The loop is
    therefore entered at most nine times ([n] is at most 8). *)
Theorem loop_head_marks (n : nat) (input : list Z) (w : World) :
  loop_head n input w ->
  let b := GameRepository._board (GamePresentation._controller w) in
  GameBoard.wf b
  /\ count_mark b PlayerX + count_mark b PlayerO = n
  /\ count_mark b PlayerX = count_mark b PlayerO + (if Nat.even n then 0 else 1)
  /\ count_mark b Empty = 9 - n
  /\ n <= 8.
Proof.
  intros Hhead b.
  destruct (loop_head_inv n input w Hhead)
    as (Hwf & _ & Hsum & Hdiff & Hblank & Hfull & _).
  fold b in Hwf, Hsum, Hdiff, Hblank, Hfull.
  assert (count_mark b Empty <> 0) as Hpos.
  { intros H0. apply IsFull_count in H0. congruence. }
  split; [done|]. repeat split; lia.
Qed.

(** X9. Each time the turn loop is entered nobody has won and the board
    is not full: the loop never goes round again after a win or a draw. *)
Theorem loop_head_undecided (n : nat) (input : list Z) (w : World) :
  loop_head n input w ->
  let b := GameRepository._board (GamePresentation._controller w) in
  GameBoard.IsWinner b PlayerX = Some false
  /\ GameBoard.IsWinner b PlayerO = Some false
  /\ GameBoard.IsFull b = false.
Proof.
  intros Hhead b.
  destruct (loop_head_inv n input w Hhead) as (_ & _ & _ & _ & _ & Hfull & HX & HO).
  done.
Qed.

(** Three rounds of [main] on the input 0 0 7 7 1 1 0 1: the pair 7 7 is
    refused. *)
Lemma loop_head_three : exists w : World, loop_head 3 [] w.
Proof.
  eexists.
  eapply loop_head_next; [eapply loop_head_next; [eapply loop_head_next|]|].
  - apply (loop_head_first GameRepository.new [0; 0; 7; 7; 1; 1; 0; 1]%Z). reflexivity.
  - vm_compute. reflexivity.
  - vm_compute. reflexivity.
  - vm_compute. reflexivity.
Qed.

Lemma loop_head_marks_witness :
  exists w : World,
    loop_head 3 [] w
    /\ let b := GameRepository._board (GamePresentation._controller w) in
       GameBoard.wf b
       /\ count_mark b PlayerX + count_mark b PlayerO = 3
       /\ count_mark b PlayerX = count_mark b PlayerO + 1
       /\ count_mark b Empty = 6
       /\ 3 <= 8.
Proof.
  destruct loop_head_three as [w Hw]. exists w. split; [exact Hw|].
  exact (loop_head_marks 3 [] w Hw).
Defined.

Lemma loop_head_undecided_witness :
  exists w : World,
    loop_head 3 [] w
    /\ let b := GameRepository._board (GamePresentation._controller w) in
       GameBoard.IsWinner b PlayerX = Some false
       /\ GameBoard.IsWinner b PlayerO = Some false
       /\ GameBoard.IsFull b = false.
Proof.
  destruct loop_head_three as [w Hw]. exists w. split; [exact Hw|].
  exact (loop_head_undecided 3 [] w Hw).
Defined.

(** A run of the loop that returns was left by [break] in some round
    entered at a loop head. *)
Lemma StartGame_loop_Done {S : Type} {_service : IGameService.t S}
    (fuel n : nat) (input rest : list Z) (w w' : GamePresentation.World S) :
  loop_head n input w ->
  GamePresentation.StartGame_loop fuel input w = GamePresentation.Done tt w' rest ->
  exists m input1 w1,
    loop_head m input1 w1
    /\ GamePresentation.StartGame_body input1 w1
       = GamePresentation.Done GamePresentation.Break w' rest.
Proof.
  revert n input w. induction fuel as [|fuel IH]; intros n input w Hhead; [done|].
  cbn [GamePresentation.StartGame_loop]. intros Hloop.
  apply pbind_Done in Hloop as (ctl & w1 & r1 & Hbody & Hloop).
  destruct ctl.
  - injection Hloop as <- <-. eauto.
  - apply (IH (Datatypes.S n) r1 w1); [|done]. by eapply loop_head_next.
Qed.

Lemma main_loop_head (input : list Z) :
  exists w0 : World,
    loop_head 0 input w0
    /\ main input = GamePresentation.StartGame_loop (Datatypes.S (length input)) input w0.
Proof.
  eexists. split; [|apply StartGame_eq].
  by apply (loop_head_first GameRepository.new input).
Qed.

(** The state in which the turn loop is left. *)
Lemma game_over_inv (n : nat) (input rest : list Z) (w w' : World) :
  loop_head n input w ->
  GamePresentation.StartGame_body input w
  = GamePresentation.Done GamePresentation.Break w' rest ->
  let b := GameRepository._board (GamePresentation._controller w') in
  let p := GamePresentation._currentPlayer w' in
  GameBoard.wf b
  /\ p = (if Nat.even n then PlayerX else PlayerO)
  /\ count_mark b PlayerX + count_mark b PlayerO = Datatypes.S n
  /\ count_mark b PlayerX = count_mark b PlayerO + (if Nat.even n then 1 else 0)
  /\ count_mark b Empty + Datatypes.S n = 9
  /\ GameBoard.IsWinner b (GamePresentation.SwitchPlayer_mark p) = Some false
  /\ exists out,
       (GameBoard.IsWinner b p = Some true
        /\ GamePresentation.cout w' = out +:+ "Player " +:+ chr p +:+ " wins!" +:+ endl)
       \/ (GameBoard.IsWinner b p = Some false
           /\ GameBoard.IsFull b = true
           /\ GamePresentation.cout w' = out +:+ "It's a draw!" +:+ endl).
Proof.
  intros Hhead Hbody b p.
  destruct (loop_head_inv n input w Hhead)
    as (Hwf & Hp & Hsum & Hdiff & Hblank & _ & HX & HO).
  apply (StartGame_body_inv _ _ _ _ _ Hwf) in Hbody
    as (Hwf' & (i & j & Hcell & Hset) & Hp' & Hend).
  fold b in Hwf', Hset, Hend. fold p in Hp'. rewrite <- Hp' in Hend, Hset.
  pose proof (fun mark => set_cell_count _ _ _ _ _ _ mark Hcell Hset) as Hcount.
  pose proof (Hcount Empty) as HcE. pose proof (Hcount PlayerX) as HcX.
  pose proof (Hcount PlayerO) as HcO. clear Hcount.
  rewrite Hp in Hp'. rewrite Hp' in HcE, HcX, HcO, Hset, Hend |- *.
  rewrite one_if_same in HcE. rewrite (one_if_other Empty PlayerX) in HcX by done.
  rewrite (one_if_other Empty PlayerO) in HcO by done.
  split; [done|]. split; [done|].
  destruct (Nat.even n).
  - rewrite one_if_same in HcX. rewrite (one_if_other PlayerX PlayerO) in HcO by done.
    rewrite (one_if_other PlayerX Empty) in HcE by done.
    repeat split; try lia; try done.
    by apply (no_new_line _ _ _ _ _ PlayerX PlayerO Hwf Hcell Hset).
  - rewrite one_if_same in HcO. rewrite (one_if_other PlayerO PlayerX) in HcX by done.
    rewrite (one_if_other PlayerO Empty) in HcE by done.
    repeat split; try lia; try done.
    by apply (no_new_line _ _ _ _ _ PlayerO PlayerX Hwf Hcell Hset).
Qed.

(** X10. When [main] returns, the last line written announces what the
    board shows.  Either it is "Player p wins!" for the current player
    [p], 'X' or 'O', who has a line of three, or it is "It's a draw!",
    the board is full and [p] has no line.  In both cases the other
    player has no line. *)
Theorem main_game_over (input rest : list Z) (w : World) :
  main input = GamePresentation.Done tt w rest ->
  let b := GameRepository._board (GamePresentation._controller w) in
  let p := GamePresentation._currentPlayer w in
  (p = PlayerX \/ p = PlayerO)
  /\ GameBoard.IsWinner b (GamePresentation.SwitchPlayer_mark p) = Some false
  /\ exists out,
       (GameBoard.IsWinner b p = Some true
        /\ GamePresentation.cout w = out +:+ "Player " +:+ chr p +:+ " wins!" +:+ endl)
       \/ (GameBoard.IsWinner b p = Some false
           /\ GameBoard.IsFull b = true
           /\ GamePresentation.cout w = out +:+ "It's a draw!" +:+ endl).
Proof.
  intros Hmain b p. destruct (main_loop_head input) as (w0 & Hhead & Heq).
  rewrite Heq in Hmain.
  apply (StartGame_loop_Done _ _ _ _ _ _ Hhead) in Hmain as (m & input1 & w1 & Hhead1 & Hbody).
  destruct (game_over_inv m input1 rest w1 w Hhead1 Hbody)
    as (_ & Hp & _ & _ & _ & Hother & Hend).
  split; [|by split].
  fold p in Hp. rewrite Hp. destruct (Nat.even m); auto.
Qed.

Lemma main_game_over_witness :
  exists w : World,
    main [0; 0; 1; 1; 0; 1; 2; 2; 0; 2]%Z = GamePresentation.Done tt w []
    /\ let b := GameRepository._board (GamePresentation._controller w) in
       let p := GamePresentation._currentPlayer w in
       (p = PlayerX \/ p = PlayerO)
       /\ GameBoard.IsWinner b (GamePresentation.SwitchPlayer_mark p) = Some false
       /\ exists out,
            (GameBoard.IsWinner b p = Some true
             /\ GamePresentation.cout w
                = out +:+ "Player " +:+ chr p +:+ " wins!" +:+ endl)
            \/ (GameBoard.IsWinner b p = Some false
                /\ GameBoard.IsFull b = true
                /\ GamePresentation.cout w = out +:+ "It's a draw!" +:+ endl).
Proof.
  eexists. split; [vm_compute; reflexivity|].
  apply (main_game_over [0; 0; 1; 1; 0; 1; 2; 2; 0; 2]%Z []). vm_compute. reflexivity.
Defined.

(** X11. When [main] returns with a full board, the last move was the
    fifth of 'X': the board holds five 'X' and four 'O'. *)
Theorem main_full_board (input rest : list Z) (w : World) :
  main input = GamePresentation.Done tt w rest ->
  GameBoard.IsFull (GameRepository._board (GamePresentation._controller w)) = true ->
  GamePresentation._currentPlayer w = PlayerX
  /\ count_mark (GameRepository._board (GamePresentation._controller w)) PlayerX = 5
  /\ count_mark (GameRepository._board (GamePresentation._controller w)) PlayerO = 4.
Proof.
  intros Hmain Hfull. destruct (main_loop_head input) as (w0 & Hhead & Heq).
  rewrite Heq in Hmain.
  apply (StartGame_loop_Done _ _ _ _ _ _ Hhead) in Hmain as (m & input1 & w1 & Hhead1 & Hbody).
  destruct (game_over_inv m input1 rest w1 w Hhead1 Hbody)
    as (_ & Hp & Hsum & Hdiff & Hblank & _).
  apply IsFull_count in Hfull. rewrite Hfull in Hblank.
  assert (m = 8) as -> by lia. simpl in Hp, Hdiff. split; [done | lia].
Qed.

Lemma main_full_board_witness :
  exists w : World,
    main [0; 0; 0; 1; 0; 2; 1; 1; 1; 0; 1; 2; 2; 1; 2; 0; 2; 2]%Z
    = GamePresentation.Done tt w []
    /\ GamePresentation._currentPlayer w = PlayerX
    /\ count_mark (GameRepository._board (GamePresentation._controller w)) PlayerX = 5
    /\ count_mark (GameRepository._board (GamePresentation._controller w)) PlayerO = 4.
Proof.
  eexists. split; [vm_compute; reflexivity|].
  apply (main_full_board [0; 0; 0; 1; 0; 2; 1; 1; 1; 0; 1; 2; 2; 1; 2; 0; 2; 2]%Z []);
    vm_compute; reflexivity.
Defined.

(** In the wiring of [main], [GetPlayerMove] runs out of input only right
    after a prompt, with the board and the current player as they were. *)
Lemma GetPlayerMove_Starved (input : list Z) (w w' : World) :
  GamePresentation.GetPlayerMove input w = GamePresentation.Starved w' ->
  GamePresentation._currentPlayer w' = GamePresentation._currentPlayer w
  /\ GamePresentation._controller w' = GamePresentation._controller w
  /\ exists out,
       GamePresentation.cout w'
       = out +:+ GamePresentation.prompt (GamePresentation._currentPlayer w).
Proof.
  revert w. induction input as [|x|row col input IH] using list_pair_ind; intros w.
  - intros [= <-]. simpl. eauto.
  - rewrite GetPlayerMove_one. destruct (is_int x); [|done].
    intros [= <-]. simpl. eauto.
  - rewrite GetPlayerMove_two. cbv zeta.
    destruct (is_int row && is_int col) eqn:Hints; [|done].
    destruct (GamePresentation.call _ _ _) as [ok w1 r1|w1| | |w1] eqn:Hcall;
      [| |done..].
    + apply call_Done in Hcall as (_ & Hp & _ & Hmove).
      cbn [GamePresentation._controller GamePresentation.print
           GamePresentation._currentPlayer] in Hp, Hmove.
      apply MakeMove_inv in Hmove. destruct ok; [done|].
      intros Hrest. apply IH in Hrest as (Hp2 & Hc2 & out & Hout).
      cbn [GamePresentation._controller GamePresentation.print
           GamePresentation._currentPlayer] in Hp2, Hc2, Hout.
      rewrite Hp in Hp2, Hout. rewrite Hmove in Hc2. eauto.
    + exfalso. revert Hcall. unfold GamePresentation.call.
      by destruct (GameController.MakeMove _ _ _ _) as [[? ?]|].
Qed.

Lemma StartGame_loop_Starved {S : Type} {_service : IGameService.t S}
    (fuel n : nat) (input : list Z) (w w' : GamePresentation.World S) :
  loop_head n input w ->
  GamePresentation.StartGame_loop fuel input w = GamePresentation.Starved w' ->
  exists m input1 w1,
    loop_head m input1 w1
    /\ GamePresentation.StartGame_body input1 w1 = GamePresentation.Starved w'.
Proof.
  revert n input w. induction fuel as [|fuel IH]; intros n input w Hhead; [done|].
  cbn [GamePresentation.StartGame_loop]. unfold GamePresentation.pbind.
  destruct (GamePresentation.StartGame_body input w) as [ctl w1 r1|w1| | |w1] eqn:Hbody;
    [| |done..].
  - destruct ctl; [done|]. apply (IH (Datatypes.S n)). by eapply loop_head_next.
  - intros [= <-]. eauto.
Qed.

(** X12. [main] waits for input only in a game that is not decided, and
    only right after prompting the player whose turn it is: the last thing
    written is the prompt for the current player, 'X' or 'O', nobody has a
    line and the board is not full. *)
Theorem main_waits_at_prompt (input : list Z) (w : World) :
  main input = GamePresentation.Starved w ->
  let b := GameRepository._board (GamePresentation._controller w) in
  let p := GamePresentation._currentPlayer w in
  (p = PlayerX \/ p = PlayerO)
  /\ (exists out, GamePresentation.cout w = out +:+ GamePresentation.prompt p)
  /\ GameBoard.IsWinner b PlayerX = Some false
  /\ GameBoard.IsWinner b PlayerO = Some false
  /\ GameBoard.IsFull b = false.
Proof.
  intros Hmain b p. destruct (main_loop_head input) as (w0 & Hhead & Heq).
  rewrite Heq in Hmain.
  apply (StartGame_loop_Starved _ _ _ _ _ Hhead) in Hmain as (m & input1 & w1 & Hhead1 & Hbody).
  destruct (loop_head_inv m input1 w1 Hhead1) as (Hwf & Hp & _ & _ & _ & Hfull & HX & HO).
  pose proof (StartGame_body_eq input1 w1 Hwf) as Heq1.
  destruct (Display_wf _ Hwf) as [text0 Htext0].
  rewrite (pbind_Done_eq _ _ _ _ _ _ _ (DisplayBoard_eq input1 w1 text0 Htext0)) in Heq1.
  destruct (GamePresentation.GetPlayerMove input1 _) as [[] w2 r2|w2| | |w2] eqn:Hget;
    [|rewrite Hbody in Heq1; injection Heq1 as Hw; subst w2|done|done|congruence].
  { destruct Heq1 as (_ & text & won & _ & _ & Heq1). rewrite Hbody in Heq1.
    destruct won; [done|].
    by destruct (GameBoard.IsFull
                   (GameRepository._board (GamePresentation._controller w2))). }
  apply GetPlayerMove_Starved in Hget as (Hp2 & Hc2 & out & Hout).
  cbn [GamePresentation._controller GamePresentation.print
       GamePresentation._currentPlayer] in Hp2, Hc2, Hout.
  subst b p. rewrite Hp2, Hc2, Hp. split; [by destruct (Nat.even m); auto|].
  split; [|done]. exists out. by rewrite Hout, Hp.
Qed.

Lemma main_waits_at_prompt_witness :
  exists w : World,
    main [0; 0; 0; 0; 1]%Z = GamePresentation.Starved w
    /\ let b := GameRepository._board (GamePresentation._controller w) in
       let p := GamePresentation._currentPlayer w in
       (p = PlayerX \/ p = PlayerO)
       /\ (exists out, GamePresentation.cout w = out +:+ GamePresentation.prompt p)
       /\ GameBoard.IsWinner b PlayerX = Some false
       /\ GameBoard.IsWinner b PlayerO = Some false
       /\ GameBoard.IsFull b = false.
Proof.
  eexists. split; [vm_compute; reflexivity|].
  apply (main_waits_at_prompt [0; 0; 0; 0; 1]%Z). vm_compute. reflexivity.
Defined.

(** ** GameBoard and the current player *)

(** X13. The rendering of a 3x3 board determines the board: two 3x3
    boards that [Display] writes alike are the same board. *)
Theorem Display_injective (b b' : GameBoard.t) :
  GameBoard.wf b -> GameBoard.wf b' ->
  GameBoard.Display b = GameBoard.Display b' -> b = b'.
Proof.
  intros Hwf Hwf'.
  destruct (wf_grid b Hwf) as (a0&a1&a2&b0&b1&b2&c0&c1&c2&->).
  destruct (wf_grid b' Hwf') as (a0'&a1'&a2'&b0'&b1'&b2'&c0'&c1'&c2'&->).
  rewrite !Display_grid. intros H. injection H as H.
  unfold row_text, chr, endl in H. cbn in H.
  by simplify_eq.
Qed.

Lemma Display_injective_witness :
  grid "X" "O" " " " " "X" " " "O" " " "X" = grid "X" "O" " " " " "X" " " "O" " " "X".
Proof.
  apply Display_injective;
    [split; [reflexivity | repeat constructor] ..| reflexivity].
Defined.

(** X14. [SwitchPlayer] toggles between 'X' and 'O' only: switching twice
    gives the mark back exactly when the mark is 'X' or 'O'; from any other
    mark the first switch gives 'X' and the second 'O'. *)
Theorem SwitchPlayer_twice (mark : ascii) :
  (GamePresentation.SwitchPlayer_mark (GamePresentation.SwitchPlayer_mark mark) = mark
   <-> mark = PlayerX \/ mark = PlayerO)
  /\ (mark = PlayerX
      \/ (GamePresentation.SwitchPlayer_mark mark = PlayerX
          /\ GamePresentation.SwitchPlayer_mark (GamePresentation.SwitchPlayer_mark mark)
             = PlayerO)).
Proof.
  unfold GamePresentation.SwitchPlayer_mark.
  destruct (Ascii.eqb_spec mark PlayerX) as [->|Hne].
  - split; [|by left]. split; [auto | done].
  - split; [|by right].
    split; [intros <-; by right | by intros [->| ->]].
Qed.



(** A numeral that does not fit an [int]: [main] never returns, and the
    board is still the empty one. *)
Example main_overflow :
  exists w,
    main [2147483648; 0; 0; 0; 0; 1; 0; 2]%Z = GamePresentation.Forever w
    /\ GameRepository._board (GamePresentation._controller w) = GameBoard.new.
Proof. eexists. split; vm_compute; reflexivity. Qed.
